(** * nx_misc.StatusDisplay: a shallow embedding and its properties

    The development follows [nx_misc/__init__.py].  Python strings are
    sequences of code points, the instance is a record of optional
    attributes (an attribute that was never assigned is [None] and reading
    it raises [AttributeError]), and the methods run in a small state and
    exception monad over the instance and the text printed to
    [sys.stderr]. *)

From Stdlib Require Import ZArith List String Ascii Bool Lia.
From Stdlib Require Import Decimal DecimalPos.
From Stdlib Require Import SpecFloat.
Import ListNotations.
Open Scope Z_scope.

(** ** Python strings *)

Module PyStr.

(** A Python [str]: a sequence of Unicode code points; [len] counts them. *)
Definition pystr := list N.

Definition lit (s : string) : pystr :=
  List.map N_of_ascii (list_ascii_of_string s).

Definition len (s : pystr) : Z := Z.of_nat (List.length s).

(** [s * n] for a string [s] and an integer [n]: empty when [n <= 0]. *)
Definition str_mul (s : pystr) (n : Z) : pystr :=
  List.concat (List.repeat s (Z.to_nat n)).

(** [s[0:n]] for a literal [n >= 0]. *)
Definition slice_to (n : nat) (s : pystr) : pystr := firstn n s.

(** [s[:-n]] for a literal [n > 0]: everything but the last [n] code
    points, empty when the string is shorter. *)
Definition drop_last (n : nat) (s : pystr) : pystr :=
  firstn (List.length s - n) s.

(** [str.isspace] on one code point (the Unicode White_Space and
    bidirectional separator code points CPython strips). *)
Definition isspace (c : N) : bool :=
  ((9 <=? c) && (c <=? 13) || (28 <=? c) && (c <=? 32) || (c =? 133)
   || (c =? 160) || (c =? 5760) || (8192 <=? c) && (c <=? 8202)
   || (c =? 8232) || (c =? 8233) || (c =? 8239) || (c =? 8287)
   || (c =? 12288))%N.

Fixpoint lstrip (s : pystr) : pystr :=
  match s with
  | c :: s' => if isspace c then lstrip s' else s
  | [] => []
  end.

Definition rstrip (s : pystr) : pystr := List.rev (lstrip (List.rev s)).

(** [s.strip()] *)
Definition strip (s : pystr) : pystr := rstrip (lstrip s).

Fixpoint uint_digits (u : Decimal.uint) : pystr :=
  match u with
  | Nil => []
  | D0 u => 48%N :: uint_digits u
  | D1 u => 49%N :: uint_digits u
  | D2 u => 50%N :: uint_digits u
  | D3 u => 51%N :: uint_digits u
  | D4 u => 52%N :: uint_digits u
  | D5 u => 53%N :: uint_digits u
  | D6 u => 54%N :: uint_digits u
  | D7 u => 55%N :: uint_digits u
  | D8 u => 56%N :: uint_digits u
  | D9 u => 57%N :: uint_digits u
  end.

(** [str(n)] and ["%d" % n] for an integer [n]. *)
Definition str_int (n : Z) : pystr :=
  match n with
  | Z0 => [48%N]
  | Zpos p => uint_digits (Pos.to_uint p)
  | Zneg p => 45%N :: uint_digits (Pos.to_uint p)
  end.

(** ["%0wd" % n] for a non-negative [n]: [str(n)] padded on the left with
    zeros to [w] characters. *)
Definition fmt_0d (w : nat) (n : Z) : pystr :=
  let s := str_int n in
  List.repeat 48%N (w - List.length s) ++ s.

End PyStr.
Import PyStr.

(** ** datetime.timedelta *)

Module Timedelta.

(** A normalised [timedelta]: [0 <= seconds < 86400] and
    [0 <= microseconds < 10^6]; [days] carries the sign. *)
Record timedelta := mk {
  days : Z;
  seconds : Z;
  microseconds : Z
}.

(** Naive [datetime] values are counted in microseconds; their difference
    is the normalised [timedelta]. *)
Definition of_microseconds (us : Z) : timedelta :=
  let s := us / 1000000 in
  mk (s / 86400) (s mod 86400) (us mod 1000000).

Definition sub (later earlier : Z) : timedelta :=
  of_microseconds (later - earlier).

(** [timedelta.__str__] of CPython:
    [[D day[s], ]H:MM:SS[.UUUUUU]], the fraction only when it is not 0. *)
Definition str (d : timedelta) : pystr :=
  let mm := seconds d / 60 in
  let ss := seconds d mod 60 in
  let hh := mm / 60 in
  let mm := mm mod 60 in
  let s := str_int hh ++ lit ":" ++ fmt_0d 2 mm ++ lit ":" ++ fmt_0d 2 ss in
  let s :=
    if days d =? 0 then s
    else str_int (days d) ++ lit " day"
         ++ (if Z.abs (days d) =? 1 then [] else lit "s") ++ lit ", " ++ s in
  if microseconds d =? 0 then s
  else s ++ lit "." ++ fmt_0d 6 (microseconds d).

End Timedelta.

(** ** Exceptions *)

(** The built-in exceptions the methods can raise; [Failure] stands for
    any exception of the caller's own code inside a [with] block. *)
Inductive exn :=
  | AttributeError (attr : string)
  | IndexError
  | ZeroDivisionError
  | OverflowError
  | ValueError
  | Failure (tag : nat).

(** ** Python numbers: [int / int] and [int(float)] *)

Module PyFloat.

Definition sign_mag (z : Z) : option (bool * positive) :=
  match z with
  | Z0 => None
  | Zpos p => Some (false, p)
  | Zneg p => Some (true, p)
  end.

(** [a / b] on Python integers is true division: the binary64 number
    nearest to the exact quotient (ties to even), [ZeroDivisionError] when
    [b] is 0 and [OverflowError] when the quotient is out of range. *)
Definition truediv (a b : Z) : exn + spec_float :=
  match sign_mag b with
  | None => inl ZeroDivisionError
  | Some (sb, mb) =>
      match sign_mag a with
      | None => inr (S754_zero sb)
      | Some (sa, ma) =>
          match SFdiv 53 1024 (S754_finite sa ma 0) (S754_finite sb mb 0) with
          | S754_infinity _ => inl OverflowError
          | q => inr q
          end
      end
  end.

(** [int(x)] on a float: truncation towards zero. *)
Definition int_of_float (x : spec_float) : exn + Z :=
  match x with
  | S754_zero _ => inr 0
  | S754_finite s m e =>
      let v := Z.shiftl (Zpos m) e in
      inr (if s then - v else v)
  | S754_infinity _ => inl OverflowError
  | S754_nan => inl ValueError
  end.

End PyFloat.
Export PyFloat.

(** ** The instance, the stream and the monad of the methods *)

(** Instance attributes of a [StatusDisplay]; [None] is an attribute that
    was never assigned.  [count] holds Python's [None] or an integer.
    [_closed] is looked up on the class when the instance has none, and the
    class gives [True]. *)
Record StatusDisplay := mkStatusDisplay {
  orig_msg : option pystr;
  count : option (option Z);
  msg : option pystr;
  _width : option Z;
  _tick : option Z;
  _start : option Z;
  _closed : bool
}.

(** A new object, before [__init__] runs. *)
Definition fresh : StatusDisplay :=
  mkStatusDisplay None None None None None None true.

(** [self] and what has been printed to [sys.stderr], one entry for each
    [print] call, oldest first. *)
Record world := mkWorld {
  self : StatusDisplay;
  stderr : list pystr
}.

(** What a call reads from its surroundings: [sys.stderr.isatty()] and
    [NOW()] (microseconds). *)
Record env := mkEnv {
  isatty : bool;
  now : Z
}.

Inductive outcome (A : Type) :=
  | Return (a : A)
  | Raise (e : exn).
Arguments Return {A} a.
Arguments Raise {A} e.

Definition M (A : Type) : Type := world -> outcome A * world.

Definition ret {A} (a : A) : M A := fun w => (Return a, w).

Definition raise {A} (e : exn) : M A := fun w => (Raise e, w).

Definition bind {A B} (m : M A) (k : A -> M B) : M B :=
  fun w =>
    match m w with
    | (Return a, w') => k a w'
    | (Raise e, w') => (Raise e, w')
    end.

Notation "x <- m ;; k" := (bind m (fun x => k))
  (at level 61, m at next level, right associativity).
Notation "m ;; k" := (bind m (fun _ => k))
  (at level 61, right associativity).

Definition lift {A} (r : exn + A) : M A :=
  match r with
  | inl e => raise e
  | inr a => ret a
  end.

(** [self.name] for an instance attribute. *)
Definition getattr {A} (name : string) (field : StatusDisplay -> option A)
  : M A :=
  fun w =>
    match field (self w) with
    | Some v => (Return v, w)
    | None => (Raise (AttributeError name), w)
    end.

Definition update (f : StatusDisplay -> StatusDisplay) : M unit :=
  fun w => (Return tt, mkWorld (f (self w)) (stderr w)).

(** [self.name = v] *)
Definition with_orig_msg (v : pystr) (s : StatusDisplay) : StatusDisplay :=
  mkStatusDisplay (Some v) (count s) (msg s) (_width s) (_tick s) (_start s)
    (_closed s).
Definition with_count (v : option Z) (s : StatusDisplay) : StatusDisplay :=
  mkStatusDisplay (orig_msg s) (Some v) (msg s) (_width s) (_tick s)
    (_start s) (_closed s).
Definition with_msg (v : pystr) (s : StatusDisplay) : StatusDisplay :=
  mkStatusDisplay (orig_msg s) (count s) (Some v) (_width s) (_tick s)
    (_start s) (_closed s).
Definition with_width (v : Z) (s : StatusDisplay) : StatusDisplay :=
  mkStatusDisplay (orig_msg s) (count s) (msg s) (Some v) (_tick s)
    (_start s) (_closed s).
Definition with_tick (v : Z) (s : StatusDisplay) : StatusDisplay :=
  mkStatusDisplay (orig_msg s) (count s) (msg s) (_width s) (Some v)
    (_start s) (_closed s).
Definition with_start (v : Z) (s : StatusDisplay) : StatusDisplay :=
  mkStatusDisplay (orig_msg s) (count s) (msg s) (_width s) (_tick s)
    (Some v) (_closed s).
Definition with_closed (v : bool) (s : StatusDisplay) : StatusDisplay :=
  mkStatusDisplay (orig_msg s) (count s) (msg s) (_width s) (_tick s)
    (_start s) v.

Definition set_orig_msg (v : pystr) : M unit := update (with_orig_msg v).
Definition set_count (v : option Z) : M unit := update (with_count v).
Definition set_msg (v : pystr) : M unit := update (with_msg v).
Definition set_width (v : Z) : M unit := update (with_width v).
Definition set_tick (v : Z) : M unit := update (with_tick v).
Definition set_start (v : Z) : M unit := update (with_start v).
Definition set_closed (v : bool) : M unit := update (with_closed v).

Definition get_closed : M bool := fun w => (Return (_closed (self w)), w).

(** [print(line, end=end_, file=sys.stderr, flush=True)] *)
Definition print (line end_ : pystr) : M unit :=
  fun w => (Return tt, mkWorld (self w) (stderr w ++ [line ++ end_])).

(** ** class StatusDisplay *)

Definition ESC : pystr := [27%N].
Definition CR : pystr := [13%N].
Definition hide_cursor : pystr := ESC ++ lit "[?25l".
Definition show_cursor : pystr := ESC ++ lit "[?25h".
Definition clear_line : pystr := ESC ++ lit "[K".
Definition newline : pystr := [10%N].

(** [_phases]: a blank and the eight left-block glyphs U+258F .. U+2588. *)
Definition _phases : list pystr :=
  [ lit " "; [9615%N]; [9614%N]; [9613%N]; [9612%N]; [9611%N]; [9610%N];
    [9609%N]; [9608%N] ].

(** [phases[i]] for [i >= 0]. *)
Definition phases_at (i : Z) : M pystr :=
  match nth_error _phases (Z.to_nat i) with
  | Some g => ret g
  | None => raise IndexError
  end.

(** [len(phases)] *)
Definition len_phases : Z := Z.of_nat (List.length _phases).

(** [phases[-1]] *)
Definition phases_last : pystr := List.last _phases [].

(** [if count:] for [None] or an integer. *)
Definition truthy (c : option Z) : bool :=
  match c with
  | Some c => negb (c =? 0)
  | None => false
  end.

(** [str(count)] *)
Definition str_count (c : option Z) : pystr :=
  match c with
  | Some c => str_int c
  | None => lit "None"
  end.

(** [tick != count] for an integer [tick]. *)
Definition ne_count (tick : Z) (c : option Z) : bool :=
  match c with
  | Some c => negb (tick =? c)
  | None => true
  end.

(** [tick > count]; reached only when [count] is a non-zero integer,
    comparing with [None] raises [TypeError] and is never reached. *)
Definition gt_count (tick : Z) (c : option Z) : bool :=
  match c with
  | Some c => tick >? c
  | None => false
  end.

(** [count] as a number, where the code divides by it or copies it. *)
Definition int_count (c : option Z) : Z :=
  match c with
  | Some c => c
  | None => 0
  end.

(** [str(elapsed)[:-4]] *)
Definition elapsed_field (elapsed : Timedelta.timedelta) : pystr :=
  drop_last 4 (Timedelta.str elapsed).

Definition __init__ (e : env) (msg_arg : pystr) (count_arg : option Z) : M unit :=
  (if isatty e then
     set_orig_msg (strip msg_arg) ;;
     set_count count_arg ;;
     om <- getattr "orig_msg" orig_msg ;;
     let line := hide_cursor ++ lit "[-:--:--.--] " ++ om in
     print line [] ;;
     om <- getattr "orig_msg" orig_msg ;;
     (if len om >? 39 then
        set_msg (slice_to 36 om ++ lit "...")
      else
        set_msg om) ;;
     m <- getattr "msg" msg ;;
     set_width (79 - (len m + 38)) ;;
     set_tick 0 ;;
     set_start (now e)
   else ret tt) ;;
  set_closed false.

Definition close (e : env) : M unit :=
  closed <- get_closed ;;
  if negb closed then
    set_closed true ;;
    start <- getattr "_start" _start ;;
    let elapsed := Timedelta.sub (now e) start in
    if isatty e then
      om <- getattr "orig_msg" orig_msg ;;
      let line := CR ++ clear_line ++ lit "[" ++ elapsed_field elapsed
                  ++ lit "] " ++ om in
      count <- getattr "count" count ;;
      line <- (if truthy count then
                 tick <- getattr "_tick" _tick ;;
                 let line := line ++ lit " [" ++ str_int tick in
                 let line := if ne_count tick count
                             then line ++ lit "/" ++ str_count count
                             else line in
                 ret (line ++ lit "]")
               else ret line) ;;
      print (line ++ show_cursor) newline
    else ret tt
  else ret tt.

Definition tick (e : env) : M unit :=
  start <- getattr "_start" _start ;;
  let elapsed := Timedelta.sub (now e) start in
  if isatty e then
    let line := hide_cursor ++ CR ++ clear_line ++ lit "["
                ++ elapsed_field elapsed ++ lit "] " in
    count <- getattr "count" count ;;
    line <- (if truthy count then
               t <- getattr "_tick" _tick ;;
               let tick := t + 1 in
               let tick := if gt_count tick count then int_count count
                           else tick in
               width <- getattr "_width" _width ;;
               let phases_length := len_phases in
               let wpt := width * tick in
               q <- lift (truediv wpt (int_count count)) ;;
               filled_length <- lift (int_of_float q) ;;
               q9 <- lift (truediv (phases_length * wpt) (int_count count)) ;;
               i9 <- lift (int_of_float q9) ;;
               let phase := i9 - phases_length * filled_length in
               current <- (if phase >? 0 then phases_at phase else ret []) ;;
               let empty :=
                 str_mul (lit " ")
                         (Z.max 0 (width - filled_length - len current)) in
               m <- getattr "msg" msg ;;
               let line := line ++ m ++ lit " |"
                           ++ str_mul phases_last filled_length
                           ++ current ++ empty ++ lit "| [" ++ str_int tick
                           ++ lit "/" ++ str_count count ++ lit "]" in
               set_tick tick ;;
               ret line
             else
               om <- getattr "orig_msg" orig_msg ;;
               ret (line ++ om)) ;;
    print line []
  else ret tt.

(** [None], the value of a method that ends without [return]. *)
Inductive NoneType := PyNone.

Definition bool_of_None (v : NoneType) : bool := false.

Definition __enter__ : M StatusDisplay := fun w => (Return (self w), w).

(** [__exit__(self, exc_type, exc_value, traceback)]; [exc] is the
    exception leaving the block, if any. *)
Definition __exit__ (e : env) (exc : option exn) : M NoneType :=
  close e ;;
  ret PyNone.

Definition done (e : env) : M unit := close e.

Definition __del__ (e : env) : M unit :=
  closed <- get_closed ;;
  if negb closed then
    if isatty e then print show_cursor newline else ret tt
  else ret tt.

(** [with self as value: body], where [e] is what [__exit__] reads from
    its surroundings: the block runs with the value of [__enter__];
    [__exit__] is called with the exception that left the block or with
    none; an exception of the block is raised again unless [__exit__]
    returned a true value, and an exception of [__exit__] replaces it. *)
Definition with_stmt (e : env) (body : StatusDisplay -> M unit) : M unit :=
  fun w =>
    match __enter__ w with
    | (Raise x, w0) => (Raise x, w0)
    | (Return value, w0) =>
        match body value w0 with
        | (Return _, w1) => (__exit__ e None ;; ret tt) w1
        | (Raise x, w1) =>
            match __exit__ e (Some x) w1 with
            | (Raise x', w2) => (Raise x', w2)
            | (Return v, w2) =>
                if bool_of_None v then (Return tt, w2) else (Raise x, w2)
            end
        end
    end.

(** A run of calls on one instance. *)
Inductive call := Tick (e : env) | Close (e : env) | Done (e : env).

Definition run_call (c : call) : M unit :=
  match c with
  | Tick e => tick e
  | Close e => close e
  | Done e => done e
  end.

(** The calls one after the other, as a block of statements: the first
    exception ends the run. *)
Fixpoint run (cs : list call) : M unit :=
  match cs with
  | [] => ret tt
  | c :: cs' => run_call c ;; run cs'
  end.

(** The world after the calls when the caller goes on after an exception
    as well (each call in its own [try]). *)
Definition exec (cs : list call) (w : world) : world :=
  fold_left (fun w c => snd (run_call c w)) cs w.

(** [StatusDisplay(msg, count)] on an empty stream. *)
Definition construct (e : env) (msg_arg : pystr) (count_arg : option Z)
  : outcome unit * world :=
  __init__ e msg_arg count_arg (mkWorld fresh []).

(** ** Definitions used to state the properties *)

(** The attributes [__init__] assigns on a terminal are all present. *)
Definition has_attrs (s : StatusDisplay) : bool :=
  match orig_msg s, count s, msg s, _width s, _tick s, _start s with
  | Some _, Some _, Some _, Some _, Some _, Some _ => true
  | _, _, _, _, _, _ => false
  end.

(** The short form of a trimmed message, as [__init__] computes [msg]. *)
Definition short_msg (om : pystr) : pystr :=
  if len om >? 39 then slice_to 36 om ++ lit "..." else om.

(** [tick = self._tick + 1], capped at a non-zero [count]. *)
Definition next_tick (t c : Z) : Z := if t + 1 >? c then c else t + 1.

(** The bar of the specification, in exact integer arithmetic:
    [filledLength = floor(barWidth * ticksCompleted / total)] and
    [phaseIndex = floor(9 * barWidth * ticksCompleted / total)
                  - 9 * filledLength]. *)
Definition filledLength (barWidth ticksCompleted total : Z) : Z :=
  barWidth * ticksCompleted / total.

Definition phaseIndex (barWidth ticksCompleted total : Z) : Z :=
  9 * barWidth * ticksCompleted / total
  - 9 * filledLength barWidth ticksCompleted total.

(** Full blocks, the partial glyph unless its index is 0, and the padding
    out to [barWidth]. *)
Definition spec_bar (barWidth ticksCompleted total : Z) : pystr :=
  let f := filledLength barWidth ticksCompleted total in
  let i := phaseIndex barWidth ticksCompleted total in
  let partial := if i =? 0 then [] else nth (Z.to_nat i) _phases [] in
  str_mul phases_last f ++ partial
  ++ str_mul (lit " ") (Z.max 0 (barWidth - f - len partial)).

(** The start of every line [tick] prints. *)
Definition tick_prefix (e : env) (start : Z) : pystr :=
  hide_cursor ++ CR ++ clear_line ++ lit "["
  ++ elapsed_field (Timedelta.sub (now e) start) ++ lit "] ".

(** The line [tick] prints in determinate mode around a bar. *)
Definition tick_line (e : env) (start : Z) (m bar : pystr) (t c : Z)
  : pystr :=
  tick_prefix e start ++ m ++ lit " |" ++ bar ++ lit "| [" ++ str_int t
  ++ lit "/" ++ str_int c ++ lit "]".

(** The counter [close] appends. *)
Definition close_counter (c : option Z) (t : Z) : pystr :=
  if truthy c then
    lit " [" ++ str_int t
    ++ (if ne_count t c then lit "/" ++ str_count c else []) ++ lit "]"
  else [].

(** The line [close] prints, with the newline of [print]. *)
Definition close_line (e : env) (start : Z) (om : pystr) (c : option Z)
  (t : Z) : pystr :=
  (CR ++ clear_line ++ lit "[" ++ elapsed_field (Timedelta.sub (now e) start)
   ++ lit "] " ++ om ++ close_counter c t ++ show_cursor) ++ newline.

(** A call that the specification expects to be silent: any call while
    the stream is not a terminal, and [close] or [done] on a closed
    instance.  [closed] is the flag before the call. *)
Definition quiet_call (closed : bool) (c : call) : bool :=
  match c with
  | Tick e => negb (isatty e)
  | Close e | Done e => closed || negb (isatty e)
  end.

Definition closed_after (closed : bool) (c : call) : bool :=
  match c with
  | Tick _ => closed
  | Close _ | Done _ => true
  end.

Fixpoint quiet (closed : bool) (cs : list call) : bool :=
  match cs with
  | [] => true
  | c :: cs' => quiet_call closed c && quiet (closed_after closed c) cs'
  end.

Definition is_close (c : call) : bool :=
  match c with
  | Tick _ => false
  | Close _ | Done _ => true
  end.

(** [total] is absent or a non-negative integer. *)
Definition nonneg_total (total : option Z) : Prop :=
  match total with
  | Some n => 0 <= n
  | None => True
  end.

(** The instance [__init__] leaves on a terminal, with [t] ticks counted. *)
Definition instance (om : pystr) (total : option Z) (start t : Z)
  (closed : bool) : StatusDisplay :=
  mkStatusDisplay (Some om) (Some total) (Some (short_msg om))
    (Some (79 - (len (short_msg om) + 38))) (Some t) (Some start) closed.


(** The last step of [binary_round_aux]. *)
Definition finish (sx : bool) (p : shr_record * Z) : spec_float :=
  let '(mrs, e) := p in
  match shr_m mrs with
  | Z0 => S754_zero sx
  | Zpos m => if e <=? 1024 - 53 then S754_finite sx m e else S754_infinity sx
  | Zneg _ => S754_nan
  end.

(** ** Concrete surroundings and instances for the examples *)

Definition tty (t : Z) : env := mkEnv true t.
Definition not_tty (t : Z) : env := mkEnv false t.

(** [StatusDisplay("job")] and [StatusDisplay("job", 5)] on a terminal. *)
Definition job_world : world := snd (construct (tty 0) (lit "job") None).
Definition job5_world : world :=
  snd (construct (tty 0) (lit "job") (Some 5)).

(** [StatusDisplay("job")] while the stream is not a terminal. *)
Definition piped_world : world :=
  snd (construct (not_tty 0) (lit "job") None).

(** [job_world] after [close()] one and a half seconds later. *)
Definition job_closed_world : world := snd (close (tty 1500000) job_world).


(** [StatusDisplay("job", 1)] on a terminal. *)
Definition job1_world : world :=
  snd (construct (tty 0) (lit "job") (Some 1)).

(** A 31-character message leaves a bar of 10 cells; with a total of 80
    and 32 ticks counted, the next tick is the 33rd. *)
Definition bar10_instance : StatusDisplay :=
  instance (lit "0123456789012345678901234567890") (Some 80) 0 32 false.



(** A message of 50 characters. *)
Definition msg50 : pystr :=
  lit "0123456789abcdefghij0123456789ABCDEFGHIJ0123456789".


(** Decimal numerals of a fixed number of digits, most significant
    first, as lists of the digits' values. *)
Definition digit_char (d : Z) : N := Z.to_N (48 + d).

Definition numeral (ds : list Z) : pystr := List.map digit_char ds.

Definition numeral_value (ds : list Z) : Z :=
  fold_left (fun acc d => 10 * acc + d) ds 0.

Definition two_digits (n : Z) : pystr := numeral [n / 10; n mod 10].

Definition digit_uint (d : Z) (u : Decimal.uint) : Decimal.uint :=
  match d with
  | 0 => D0 u
  | 1 => D1 u
  | 2 => D2 u
  | 3 => D3 u
  | 4 => D4 u
  | 5 => D5 u
  | 6 => D6 u
  | 7 => D7 u
  | 8 => D8 u
  | _ => D9 u
  end.

Fixpoint uint_of_digits (ds : list Z) : Decimal.uint :=
  match ds with
  | [] => Nil
  | d :: ds' => digit_uint d (uint_of_digits ds')
  end.

Definition is_digit (d : Z) : Prop := 0 <= d <= 9.


(** ** The module's other functions *)

Module Misc.

(** [set(clct)]: the distinct elements of a collection of hashable values
    with a decidable equality. *)
Definition set_of {A : Type} (eq_dec : forall x y : A, {x = y} + {x <> y})
  (clct : list A) : list A :=
  nodup eq_dec clct.

(** [any_duplicates(clct)]: [len(clct) != len(set(clct))]. *)
Definition any_duplicates {A : Type}
  (eq_dec : forall x y : A, {x = y} + {x <> y}) (clct : list A) : bool :=
  negb (List.length clct =? List.length (set_of eq_dec clct))%nat.

(** A function without arguments acting on a state [St]: it returns
    normally ([None]) or raises an exception of [E]. *)
Definition func (St E : Type) : Type := St -> option E * St.

(** The interpreter bounds the depth of nested calls.  A [callable] is the
    body of a Python function, run with [room] more nested calls allowed
    below it. *)
Definition callable (St E : Type) : Type := nat -> func St E.

(** [f()]: entering the function takes one level; with none left the call
    raises [RecursionError] and the body does not run. *)
Definition invoke {St E : Type} (RecursionError : E) (f : callable St E)
  (room : nat) : func St E :=
  match room with
  | O => fun s => (Some RecursionError, s)
  | S room' => f room'
  end.

(** A function of the list: what it does once entered is its [func]. *)
Definition def {St E : Type} (f : func St E) : callable St E :=
  fun _ => f.

(** [gen(func1, func2)]: the closure [_] with body
    [try: func1() finally: func2()].  Both calls are made from the frame of
    [_]; an exception of [func2] replaces the one of [func1]. *)
Definition gen {St E : Type} (RecursionError : E)
  (func1 func2 : callable St E) : callable St E :=
  fun room s =>
    let (r1, s1) := invoke RecursionError func1 room s in
    let (r2, s2) := invoke RecursionError func2 room s1 in
    (match r2 with
     | Some e2 => Some e2
     | None => r1
     end, s2).

(** [force_run(iterable)]: [functools.reduce(gen, iterable)()], in a body
    that may nest [room] more calls.  [reduce] folds from the left starting
    with the first element, and raises [TypeError] on an empty iterable;
    the closure it returns holds one [_] inside the other, the first
    function innermost, and is called once.  (With no room left and two
    functions or more it is the first [gen(...)] that raises
    [RecursionError], with the same outcome.) *)
Definition force_run {St E : Type} (RecursionError TypeError : E)
  (iterable : list (func St E)) (room : nat) : func St E :=
  match List.map def iterable with
  | [] => fun s => (Some TypeError, s)
  | f :: fs =>
      invoke RecursionError (fold_left (gen RecursionError) fs f) room
  end.

(** The functions of the docstring of [force_run]; the state is the pair of
    the globals [a] and [b]. *)
Definition doc_x : func (Z * Z) string := fun s => (None, (1, snd s)).

Definition doc_y : func (Z * Z) string := fun s => (None, (fst s, 2)).

Definition doc_z : func (Z * Z) string :=
  fun s => (Some "ValueError"%string, s).

(** A [dict]: keys with their values in insertion order. *)
Definition dict (K V : Type) : Type := list (K * V).

Fixpoint dict_get {K V : Type} (eq_dec : forall x y : K, {x = y} + {x <> y})
  (dct : dict K V) (k : K) : option V :=
  match dct with
  | [] => None
  | (k', v) :: dct' => if eq_dec k k' then Some v else dict_get eq_dec dct' k
  end.

(** [dct.keys()] *)
Definition keys {K V : Type} (dct : dict K V) : list K := List.map fst dct.

(** [k in s] for a set or a tuple of keys. *)
Definition mem {K : Type} (eq_dec : forall x y : K, {x = y} + {x <> y})
  (k : K) (s : list K) : bool :=
  if in_dec eq_dec k s then true else false.

(** What [flatten_dict] and [flatten_obj] raise. *)
Inductive flatten_exn (K : Type) :=
  | ValueError_extra (text : string) (extras : list K)
  | KeyError (k : K)
  | AttributeError_missing (k : K).
Arguments ValueError_extra {K} text extras.
Arguments KeyError {K} k.
Arguments AttributeError_missing {K} k.

(** [[f(x) for x in xs]] where [f] may raise: the first exception ends
    the comprehension. *)
Fixpoint comprehension {A B X : Type} (f : A -> X + B) (xs : list A)
  : X + list B :=
  match xs with
  | [] => inr []
  | x :: xs' =>
      match f x with
      | inl e => inl e
      | inr y =>
          match comprehension f xs' with
          | inl e => inl e
          | inr ys => inr (y :: ys)
          end
      end
  end.

(** [field_set or set(fields)]: an absent or empty [field_set] gives way
    to the fields. *)
Definition field_set_or {K : Type} (field_set : option (list K))
  (fields : list K) : list K :=
  match field_set with
  | Some (k :: s) => k :: s
  | Some [] | None => fields
  end.

(** [dct.keys() - s], in the order of the keys. *)
Definition keys_minus {K V : Type}
  (eq_dec : forall x y : K, {x = y} + {x <> y}) (dct : dict K V)
  (s : list K) : list K :=
  List.filter (fun k => negb (mem eq_dec k s)) (keys dct).

(** [flatten_dict(dct, fields, rest_val=..., extras_action=...,
    field_set=...)]; [rest_val] and [field_set] are [None] or a value. *)
Definition flatten_dict {K V : Type}
  (eq_dec : forall x y : K, {x = y} + {x <> y}) (dct : dict K V)
  (fields : list K) (rest_val : option V) (extras_action : string)
  (field_set : option (list K)) : flatten_exn K + list V :=
  let extras :=
    if String.eqb extras_action "raise" then
      keys_minus eq_dec dct (field_set_or field_set fields)
    else [] in
  match extras with
  | _ :: _ => inl (ValueError_extra "invalid extra keys" extras)
  | [] =>
      match rest_val with
      | Some r =>
          inr (List.map (fun f => match dict_get eq_dec dct f with
                                  | Some v => v
                                  | None => r
                                  end) fields)
      | None =>
          comprehension (fun f => match dict_get eq_dec dct f with
                                  | Some v => inr v
                                  | None => inl (KeyError f)
                                  end) fields
      end
  end.

(** [flatten_obj(obj, fields, rest_val=...)], the object being its
    attributes by name. *)
Definition flatten_obj {K V : Type}
  (eq_dec : forall x y : K, {x = y} + {x <> y}) (obj : dict K V)
  (fields : list K) (rest_val : option V) : flatten_exn K + list V :=
  match rest_val with
  | Some r =>
      inr (List.map (fun f => match dict_get eq_dec obj f with
                              | Some v => v
                              | None => r
                              end) fields)
  | None =>
      comprehension (fun f => match dict_get eq_dec obj f with
                              | Some v => inr v
                              | None => inl (AttributeError_missing f)
                              end) fields
  end.

(** The state after each function of a list has run, exceptions or not,
    and the exceptions in the order they were raised. *)
Definition run_all {St E : Type} (fs : list (func St E)) (s : St) : St :=
  fold_left (fun s f => snd (f s)) fs s.

Fixpoint raised {St E : Type} (fs : list (func St E)) (s : St) : list E :=
  match fs with
  | [] => []
  | f :: fs' =>
      match fst (f s) with
      | Some e => e :: raised fs' (snd (f s))
      | None => raised fs' (snd (f s))
      end
  end.

End Misc.


(** A block that ticks once and then fails. *)
Definition failing_block : StatusDisplay -> M unit :=
  fun _ => tick (tty 1) ;; raise (Failure 7).

(** The first character of a string, if any, is not white space. *)
Definition starts_clean (s : pystr) : Prop :=
  match s with
  | [] => True
  | c :: _ => isspace c = false
  end.

(** * Properties *)

(** ** True division and truncation on small integers

    [int(a / b)] goes through binary64.  For operands below [2^51] the
    rounding of the quotient never reaches the next integer, so the result
    is the integer quotient. *)

Section Binary64.

Lemma digits2_pos_bounds (p : positive) :
  2 ^ (Zpos (digits2_pos p) - 1) <= Zpos p < 2 ^ Zpos (digits2_pos p).
Proof.
  induction p as [p IH | p IH |]; cbn [digits2_pos].
  - rewrite Pos2Z.inj_succ.
    replace (Z.succ (Zpos (digits2_pos p)) - 1) with (Z.succ (Zpos (digits2_pos p) - 1)) by lia.
    rewrite !Z.pow_succ_r by lia. lia.
  - rewrite Pos2Z.inj_succ.
    replace (Z.succ (Zpos (digits2_pos p)) - 1) with (Z.succ (Zpos (digits2_pos p) - 1)) by lia.
    rewrite !Z.pow_succ_r by lia. lia.
  - cbn. lia.
Qed.

Lemma digits2_pos_range (p : positive) (d : Z) :
  0 < d -> 2 ^ (d - 1) <= Zpos p < 2 ^ d -> Zpos (digits2_pos p) = d.
Proof.
  intros Hd [Hlo Hhi].
  pose proof (digits2_pos_bounds p) as [Blo Bhi].
  destruct (Z.lt_trichotomy (Zpos (digits2_pos p)) d) as [Hlt | [Heq | Hgt]]; [| exact Heq |].
  - assert (2 ^ Zpos (digits2_pos p) <= 2 ^ (d - 1)) by (apply Z.pow_le_mono_r; lia). lia.
  - assert (2 ^ d <= 2 ^ (Zpos (digits2_pos p) - 1)) by (apply Z.pow_le_mono_r; lia). lia.
Qed.

Lemma round_nearest_even_cases (m : Z) (l : location) :
  round_nearest_even m l = m \/ round_nearest_even m l = m + 1.
Proof.
  destruct l as [| []]; cbn; auto. destruct (Z.even m); auto.
Qed.

Lemma shr_m_of_loc (m : Z) (l : location) : shr_m (shr_record_of_loc m l) = m.
Proof. destruct l as [| []]; reflexivity. Qed.

Lemma shr_m_shr_1 (mrs : shr_record) :
  0 <= shr_m mrs -> shr_m (shr_1 mrs) = shr_m mrs / 2.
Proof.
  destruct mrs as [m r s]; cbn [shr_m]. intros Hm.
  destruct m as [| [p | p |] |]; cbn [shr_1 shr_m]; try lia.
  - reflexivity.
  - rewrite Pos2Z.inj_xI. apply Z.div_unique with (r := 1); lia.
  - rewrite Pos2Z.inj_xO. apply Z.div_unique with (r := 0); lia.
  - reflexivity.
Qed.

Lemma shr_fexp_53 (q e : Z) (l : location) :
  2 ^ 52 <= q < 2 ^ 53 -> -1000 <= e <= 900 ->
  shr_fexp 53 1024 q e l = (shr_record_of_loc q l, e).
Proof.
  intros Hq He. unfold shr_fexp.
  destruct q as [| p |]; try lia.
  cbn [Zdigits2]. rewrite (digits2_pos_range p 53) by (cbn; lia).
  unfold fexp, emin.
  replace (Z.max (53 + e - 53) (3 - 1024 - 53) - e) with 0 by lia.
  reflexivity.
Qed.

Lemma shr_fexp_54 (q e : Z) (l : location) :
  2 ^ 53 <= q < 2 ^ 54 -> -1000 <= e <= 900 ->
  shr_fexp 53 1024 q e l = (shr_1 (shr_record_of_loc q l), e + 1).
Proof.
  intros Hq He. unfold shr_fexp.
  destruct q as [| p |]; try lia.
  cbn [Zdigits2]. rewrite (digits2_pos_range p 54) by (cbn; lia).
  unfold fexp, emin.
  replace (Z.max (54 + e - 53) (3 - 1024 - 53) - e) with 1 by lia.
  reflexivity.
Qed.

Lemma binary_round_aux_finish (sx : bool) (q e : Z) (l : location) :
  binary_round_aux 53 1024 sx q e l =
  finish sx
    (shr_fexp 53 1024
       (round_nearest_even (shr_m (fst (shr_fexp 53 1024 q e l)))
          (loc_of_shr_record (fst (shr_fexp 53 1024 q e l))))
       (snd (shr_fexp 53 1024 q e l)) loc_Exact).
Proof.
  unfold binary_round_aux, finish.
  destruct (shr_fexp 53 1024 q e l) as [mrs' e']. cbn [fst snd].
  reflexivity.
Qed.

Lemma finish_normal (sx : bool) (m1 e : Z) :
  2 ^ 52 <= m1 <= 2 ^ 53 -> -1000 <= e <= 900 ->
  exists (m2 : positive) (k : Z),
    finish sx (shr_fexp 53 1024 m1 e loc_Exact) = S754_finite sx m2 (e + k)
    /\ 0 <= k <= 1 /\ Zpos m2 * 2 ^ k = m1.
Proof.
  intros Hm He.
  destruct (Z.eq_dec m1 (2 ^ 53)) as [-> | Hne].
  - rewrite shr_fexp_54 by lia.
    exists (4503599627370496%positive), 1.
    change (2 ^ 53) with 9007199254740992.
    cbn [finish shr_record_of_loc shr_1 shr_m].
    replace (e + 1 <=? 1024 - 53) with true by (symmetry; apply Z.leb_le; lia).
    repeat split; lia.
  - rewrite shr_fexp_53 by lia.
    assert (0 < 2 ^ 52) by (apply Z.pow_pos_nonneg; lia).
    destruct m1 as [| p |]; try lia.
    exists p, 0. cbn [finish shr_record_of_loc shr_m].
    replace (e <=? 1024 - 53) with true by (symmetry; apply Z.leb_le; lia).
    rewrite Z.add_0_r. repeat split; lia.
Qed.

Lemma binary_round_aux_bounds (sx : bool) (q e : Z) (l : location) :
  2 ^ 52 <= q < 2 ^ 54 -> -1000 <= e <= 800 ->
  exists (m2 : positive) (k : Z),
    binary_round_aux 53 1024 sx q e l = S754_finite sx m2 (e + k)
    /\ 0 <= k <= 2 /\ q - 2 ^ k < Zpos m2 * 2 ^ k <= q + 2.
Proof.
  intros Hq He. rewrite binary_round_aux_finish.
  destruct (Z_lt_le_dec q (2 ^ 53)) as [Hlt | Hge].
  - rewrite (shr_fexp_53 q e l) by lia. cbn [fst snd]. rewrite shr_m_of_loc.
    set (m1 := round_nearest_even q _).
    assert (Hm1 : m1 = q \/ m1 = q + 1) by apply round_nearest_even_cases.
    destruct (finish_normal sx m1 e) as (m2 & k & -> & Hk & Hv); try lia.
    exists m2, k. split; [reflexivity | split; [lia |]].
    rewrite Hv. assert (k = 0 \/ k = 1) as [-> | ->] by lia; cbn; lia.
  - rewrite (shr_fexp_54 q e l) by lia. cbn [fst snd].
    rewrite shr_m_shr_1 by (rewrite shr_m_of_loc; lia). rewrite shr_m_of_loc.
    set (m1 := round_nearest_even (q / 2) _).
    assert (Hm1 : m1 = q / 2 \/ m1 = q / 2 + 1) by apply round_nearest_even_cases.
    assert (Hq2 : 2 ^ 52 <= q / 2 < 2 ^ 53).
    { change (2 ^ 53) with (2 * 2 ^ 52) in *. change (2 ^ 54) with (2 * (2 * 2 ^ 52)) in *.
      split; [apply Z.div_le_lower_bound | apply Z.div_lt_upper_bound]; lia. }
    destruct (finish_normal sx m1 (e + 1)) as (m2 & k & -> & Hk & Hv); try lia.
    exists m2, (1 + k). split; [f_equal; lia | split; [lia |]].
    pose proof (Z.div_mod q 2 ltac:(lia)) as Hdm.
    pose proof (Z.mod_pos_bound q 2 ltac:(lia)) as Hmod.
    assert (k = 0 \/ k = 1) as [-> | ->] by lia.
    + change (2 ^ (1 + 0)) with 2. change (2 ^ 0) with 1 in Hv. lia.
    + change (2 ^ (1 + 1)) with 4. change (2 ^ 1) with 2 in Hv. lia.
Qed.

Lemma SFdiv_core_small (ma mb : positive) :
  let d1 := Zpos (digits2_pos ma) in
  let d2 := Zpos (digits2_pos mb) in
  let s := 53 + d2 - d1 in
  d1 <= 51 -> d2 <= 51 ->
  SFdiv_core_binary 53 1024 (Zpos ma) 0 (Zpos mb) 0 =
  (Zpos ma * 2 ^ s / Zpos mb, - s,
   new_location (Zpos mb) (Zpos ma * 2 ^ s mod Zpos mb)).
Proof.
  intros d1 d2 s H1 H2.
  assert (0 < d1 /\ 0 < d2) as [P1 P2] by (unfold d1, d2; lia).
  unfold SFdiv_core_binary. cbn [Zdigits2]. fold d1 d2.
  replace (Z.min (fexp 53 1024 (d1 + 0 - (d2 + 0))) (0 - 0)) with (- s)
    by (unfold fexp, emin, s; lia).
  replace (0 - 0 - - s) with s by lia.
  assert (Hs : 0 < s) by (unfold s; lia).
  destruct s as [| ps |] eqn:Es; try lia.
  rewrite Z.shiftl_mul_pow2 by lia.
  unfold Z.div, Z.modulo.
  destruct (Z.div_eucl (Zpos ma * 2 ^ Zpos ps) (Zpos mb)) as [q r].
  reflexivity.
Qed.

Lemma truediv_exact (a b : Z) :
  0 <= a < 2 ^ 51 -> 0 < b < 2 ^ 51 ->
  exists q, truediv a b = inr q /\ int_of_float q = inr (a / b).
Proof.
  intros Ha Hb.
  destruct b as [| mb |]; try lia.
  destruct a as [| ma |]; try lia.
  - exists (S754_zero false). split; reflexivity.
  - unfold truediv. cbn [sign_mag SFdiv xorb].
    pose proof (digits2_pos_bounds ma) as [A1 A2].
    pose proof (digits2_pos_bounds mb) as [B1 B2].
    set (d1 := Zpos (digits2_pos ma)) in *.
    set (d2 := Zpos (digits2_pos mb)) in *.
    assert (0 < d1 /\ 0 < d2) as [P1 P2] by (unfold d1, d2; lia).
    assert (D1 : d1 <= 51).
    { destruct (Z_le_gt_dec d1 51) as [|G]; [assumption |].
      assert (2 ^ 51 <= 2 ^ (d1 - 1)) by (apply Z.pow_le_mono_r; lia). lia. }
    assert (D2 : d2 <= 51).
    { destruct (Z_le_gt_dec d2 51) as [|G]; [assumption |].
      assert (2 ^ 51 <= 2 ^ (d2 - 1)) by (apply Z.pow_le_mono_r; lia). lia. }
    rewrite SFdiv_core_small by assumption. fold d1 d2.
    set (s := 53 + d2 - d1).
    set (T := 2 ^ s).
    set (n := Zpos ma / Zpos mb).
    assert (ET1 : 2 ^ (d1 - 1) * T = 2 ^ 52 * 2 ^ d2).
    { unfold T, s. rewrite <- !Z.pow_add_r by lia. f_equal. lia. }
    assert (ET2 : 2 ^ d1 * T = 2 ^ 54 * 2 ^ (d2 - 1)).
    { unfold T, s. rewrite <- !Z.pow_add_r by lia. f_equal. lia. }
    assert (ET3 : T = 2 ^ (51 - d1) * 4 * 2 ^ d2).
    { unfold T, s. change 4 with (2 ^ 2). rewrite <- !Z.pow_add_r by lia. f_equal. lia. }
    assert (0 < T) by (apply Z.pow_pos_nonneg; unfold s; lia).
    assert (0 < 2 ^ (51 - d1)) by (apply Z.pow_pos_nonneg; lia).
    assert (0 < 2 ^ 52) by (apply Z.pow_pos_nonneg; lia).
    assert (0 < 2 ^ 54) by (apply Z.pow_pos_nonneg; lia).
    assert (T4 : 4 * Zpos mb < T) by nia.
    assert (Hn : Zpos mb * n <= Zpos ma < Zpos mb * (n + 1)).
    { unfold n. pose proof (Z.div_mod (Zpos ma) (Zpos mb) ltac:(lia)).
      pose proof (Z.mod_pos_bound (Zpos ma) (Zpos mb) ltac:(lia)). lia. }
    assert (0 <= n) by (unfold n; apply Z.div_pos; lia).
    set (q := Zpos ma * T / Zpos mb).
    assert (Q1 : 2 ^ 52 <= q) by (unfold q; apply Z.div_le_lower_bound; nia).
    assert (Q2 : q < 2 ^ 54) by (unfold q; apply Z.div_lt_upper_bound; nia).
    assert (Q3 : n * T <= q) by (unfold q; apply Z.div_le_lower_bound; nia).
    assert (Q4 : q < (n + 1) * T - 3) by (unfold q; apply Z.div_lt_upper_bound; nia).
    destruct (binary_round_aux_bounds false q (- s) (new_location (Zpos mb) (Zpos ma * T mod Zpos mb)))
      as (m2 & k & -> & Hk & Hv); [lia | unfold s; lia |].
    exists (S754_finite false m2 (- s + k)). split; [reflexivity |].
    cbn [int_of_float]. f_equal.
    assert (Hsk : 0 < s - k) by (unfold s; lia).
    rewrite <- (Z.shiftr_opp_r), Z.shiftr_div_pow2 by lia.
    replace (- (- s + k)) with (s - k) by lia.
    set (P := 2 ^ (s - k)).
    assert (0 < P) by (apply Z.pow_pos_nonneg; lia).
    assert (ETP : T = P * 2 ^ k).
    { unfold T, P. rewrite <- Z.pow_add_r by lia. f_equal. lia. }
    apply Z.le_antisymm.
    + apply Z.lt_succ_r. apply Z.div_lt_upper_bound; [lia |].
      assert (k = 0 \/ k = 1 \/ k = 2) as [-> | [-> | ->]] by lia;
        [change (2 ^ 0) with 1 in * | change (2 ^ 1) with 2 in * | change (2 ^ 2) with 4 in *]; nia.
    + apply Z.div_le_lower_bound; [lia |].
      assert (k = 0 \/ k = 1 \/ k = 2) as [-> | [-> | ->]] by lia;
        [change (2 ^ 0) with 1 in * | change (2 ^ 1) with 2 in * | change (2 ^ 2) with 4 in *]; nia.
Qed.

End Binary64.

(** ** The methods on an instance made on a terminal *)

Ltac monad_unfold :=
  unfold bind, getattr, ret, raise, lift, print, get_closed,
    set_orig_msg, set_count, set_msg, set_width, set_tick, set_start,
    set_closed, update in *.

Ltac monad_simpl :=
  monad_unfold;
  cbn [self stderr orig_msg count msg _width _tick _start _closed
       with_orig_msg with_count with_msg with_width with_tick with_start
       with_closed fst snd negb] in *.

Ltac open_obj s :=
  destruct s as [[?om |] [?c |] [?m |] [?wd |] [?t |] [?st |] ?cl];
  try discriminate.

Lemma close_closed (e : env) (w : world) :
  _closed (self w) = true -> close e w = (Return tt, w).
Proof.
  intros H. unfold close. monad_simpl. rewrite H. reflexivity.
Qed.

Lemma close_open (e : env) (s : StatusDisplay) (out : list pystr)
      (om m : pystr) (c : option Z) (wd t st : Z) :
  s = mkStatusDisplay (Some om) (Some c) (Some m) (Some wd) (Some t) (Some st) false ->
  close e (mkWorld s out) =
  (Return tt,
   mkWorld (with_closed true s)
     (if isatty e then out ++ [close_line e st om c t] else out)).
Proof.
  intros ->. unfold close. monad_simpl.
  destruct (isatty e); [| reflexivity]. monad_simpl.
  unfold close_line, close_counter.
  destruct (truthy c); monad_simpl.
  - destruct (ne_count t c); monad_simpl; rewrite <- ?app_assoc; reflexivity.
  - rewrite <- ?app_assoc. rewrite app_nil_l. reflexivity.
Qed.

Lemma tick_not_tty (e : env) (w : world) (st : Z) :
  _start (self w) = Some st -> isatty e = false -> tick e w = (Return tt, w).
Proof.
  intros Hs Ht. unfold tick. monad_simpl. rewrite Hs, Ht. reflexivity.
Qed.

Lemma tick_indeterminate (e : env) (s : StatusDisplay) (out : list pystr)
      (om m : pystr) (c : option Z) (wd t st : Z) (cl : bool) :
  s = mkStatusDisplay (Some om) (Some c) (Some m) (Some wd) (Some t) (Some st) cl ->
  isatty e = true -> truthy c = false ->
  tick e (mkWorld s out) =
  (Return tt, mkWorld s (out ++ [tick_prefix e st ++ om])).
Proof.
  intros -> Ht Hc. unfold tick. monad_simpl. rewrite Ht. monad_simpl.
  rewrite Hc. monad_simpl.
  unfold tick_prefix. rewrite app_nil_r, <- !app_assoc. reflexivity.
Qed.

(** A determinate-mode [tick] on a terminal either raises before it
    prints or assigns, or prints one line of the shape of [tick_line] and
    stores the capped count. *)
Lemma tick_determinate_shape (e : env) (s : StatusDisplay) (out : list pystr)
      (om m : pystr) (c wd t st : Z) (cl : bool) :
  s = mkStatusDisplay (Some om) (Some (Some c)) (Some m) (Some wd) (Some t) (Some st) cl ->
  isatty e = true -> c <> 0 ->
  (exists x, tick e (mkWorld s out) = (Raise x, mkWorld s out))
  \/ (exists bar,
        tick e (mkWorld s out) =
        (Return tt,
         mkWorld (with_tick (next_tick t c) s)
           (out ++ [tick_line e st m bar (next_tick t c) c]))).
Proof.
  intros -> Ht Hc. unfold tick. monad_simpl. rewrite Ht. monad_simpl.
  assert (Hc' : (c =? 0) = false) by (apply Z.eqb_neq; exact Hc).
  unfold truthy. rewrite Hc'. monad_simpl.
  unfold gt_count, int_count. fold (next_tick t c).
  destruct (truediv (wd * next_tick t c) c) as [x | q];
    monad_simpl; [left; eexists; reflexivity |].
  destruct (int_of_float q) as [x | f];
    monad_simpl; [left; eexists; reflexivity |].
  destruct (truediv (len_phases * (wd * next_tick t c)) c) as [x | q9];
    monad_simpl; [left; eexists; reflexivity |].
  destruct (int_of_float q9) as [x | i9];
    monad_simpl; [left; eexists; reflexivity |].
  destruct (i9 - len_phases * f >? 0).
  - unfold phases_at.
    destruct (nth_error _phases (Z.to_nat (i9 - len_phases * f))) as [g |];
      monad_simpl; [| left; eexists; reflexivity].
    right.
    exists (str_mul phases_last f ++ g
            ++ str_mul (lit " ") (Z.max 0 (wd - f - len g))).
    unfold tick_line, tick_prefix, str_count.
    rewrite app_nil_r, <- !app_assoc. reflexivity.
  - monad_simpl. right.
    exists (str_mul phases_last f ++ []
            ++ str_mul (lit " ") (Z.max 0 (wd - f - len []))).
    unfold tick_line, tick_prefix, str_count.
    rewrite app_nil_r, <- !app_assoc. reflexivity.
Qed.

Lemma phaseIndex_range (w t c : Z) :
  0 < c -> 0 <= phaseIndex w t c <= 8.
Proof.
  intros Hc. unfold phaseIndex, filledLength.
  rewrite <- Z.mul_assoc.
  set (x := w * t).
  pose proof (Z.div_mod x c ltac:(lia)) as Hx.
  pose proof (Z.mod_pos_bound x c Hc) as Hr.
  replace (9 * x) with (9 * (x / c) * c + 9 * (x mod c)) by lia.
  rewrite Z.div_add_l by lia.
  assert (0 <= 9 * (x mod c) / c) by (apply Z.div_pos; lia).
  assert (9 * (x mod c) / c < 9) by (apply Z.div_lt_upper_bound; lia).
  lia.
Qed.

Lemma next_tick_range (t c : Z) :
  0 <= t -> 1 <= c -> 1 <= next_tick t c <= c.
Proof.
  intros Ht Hc. unfold next_tick.
  destruct (Z.gtb_spec (t + 1) c); lia.
Qed.

Lemma next_tick_mono (t c : Z) :
  0 <= t <= c -> t <= next_tick t c.
Proof.
  intros Ht. unfold next_tick. destruct (Z.gtb_spec (t + 1) c); lia.
Qed.

Lemma phases_at_partial (i : Z) :
  1 <= i <= 8 ->
  nth_error _phases (Z.to_nat i) = Some (nth (Z.to_nat i) _phases [])
  /\ len (nth (Z.to_nat i) _phases []) = 1.
Proof.
  intros Hi.
  assert (i = 1 \/ i = 2 \/ i = 3 \/ i = 4 \/ i = 5 \/ i = 6 \/ i = 7 \/ i = 8)
    as [-> | [-> | [-> | [-> | [-> | [-> | [-> | ->]]]]]]] by lia;
    split; reflexivity.
Qed.

Lemma tick_determinate_exact (e : env) (s : StatusDisplay)
      (out : list pystr) (om m : pystr) (c wd t st : Z) (cl : bool) :
  s = mkStatusDisplay (Some om) (Some (Some c)) (Some m) (Some wd) (Some t) (Some st) cl ->
  isatty e = true -> 1 <= c < 2 ^ 42 -> 0 <= t -> 0 <= wd <= 41 ->
  tick e (mkWorld s out) =
  (Return tt,
   mkWorld (with_tick (next_tick t c) s)
     (out ++ [tick_line e st m (spec_bar wd (next_tick t c) c)
                (next_tick t c) c])).
Proof.
  intros -> Ht Hc Htk Hw. unfold tick. monad_simpl. rewrite Ht. monad_simpl.
  assert (Hc' : (c =? 0) = false) by (apply Z.eqb_neq; lia).
  unfold truthy. rewrite Hc'. monad_simpl.
  unfold gt_count, int_count. fold (next_tick t c).
  pose proof (next_tick_range t c Htk ltac:(lia)) as Hn.
  set (t' := next_tick t c) in *.
  change (2 ^ 42) with 4398046511104 in Hc.
  change len_phases with 9.
  destruct (truediv_exact (wd * t') c) as (q & -> & Hq).
  { change (2 ^ 51) with 2251799813685248. nia. }
  { change (2 ^ 51) with 2251799813685248. lia. }
  monad_simpl. rewrite Hq. monad_simpl.
  destruct (truediv_exact (9 * (wd * t')) c) as (q9 & -> & Hq9).
  { change (2 ^ 51) with 2251799813685248. nia. }
  { change (2 ^ 51) with 2251799813685248. lia. }
  monad_simpl. rewrite Hq9. monad_simpl.
  pose proof (phaseIndex_range wd t' c ltac:(lia)) as Hp.
  unfold spec_bar.
  assert (Ei : 9 * (wd * t') / c - 9 * (wd * t' / c) = phaseIndex wd t' c).
  { unfold phaseIndex, filledLength. rewrite Z.mul_assoc. reflexivity. }
  rewrite Ei. fold (filledLength wd t' c).
  set (i := phaseIndex wd t' c) in *.
  set (f := filledLength wd t' c).
  destruct (Z.gtb_spec i 0) as [Epos | Epos].
  - assert (Hi : 1 <= i <= 8) by lia.
    destruct (phases_at_partial i Hi) as [Hnth Hlen].
    unfold phases_at. rewrite Hnth. monad_simpl.
    replace (i =? 0) with false by (symmetry; apply Z.eqb_neq; lia).
    unfold tick_line, tick_prefix, str_count.
    rewrite app_nil_r, <- !app_assoc. reflexivity.
  - assert (Hi : i = 0) by lia. rewrite Hi. monad_simpl.
    cbn [Z.eqb].
    unfold tick_line, tick_prefix, str_count.
    rewrite app_nil_r, <- !app_assoc. reflexivity.
Qed.

Lemma short_msg_long (om : pystr) :
  39 < len om ->
  short_msg om = slice_to 36 om ++ lit "..." /\ len (short_msg om) = 39.
Proof.
  intros H. unfold short_msg.
  replace (len om >? 39) with true by (symmetry; apply Z.gtb_lt; lia).
  split; [reflexivity |].
  unfold len, slice_to in *. rewrite length_app, length_firstn.
  cbn [lit list_ascii_of_string List.map List.length]. lia.
Qed.

Lemma short_msg_short (om : pystr) :
  len om <= 39 -> short_msg om = om.
Proof.
  intros H. unfold short_msg.
  destruct (Z.gtb_spec (len om) 39); [lia | reflexivity].
Qed.

Lemma short_msg_len (om : pystr) : 0 <= len (short_msg om) <= 39.
Proof.
  destruct (Z_lt_le_dec 39 (len om)) as [H | H].
  - destruct (short_msg_long om H) as [_ ->]. lia.
  - rewrite short_msg_short by assumption. unfold len in *. lia.
Qed.

Lemma construct_tty (e : env) (m : pystr) (total : option Z) :
  isatty e = true ->
  construct e m total =
  (Return tt,
   mkWorld (instance (strip m) total (now e) 0 false)
     [hide_cursor ++ lit "[-:--:--.--] " ++ strip m]).
Proof.
  intros Ht. unfold construct, __init__. monad_simpl. rewrite Ht. monad_simpl.
  unfold instance, short_msg.
  destruct (len (strip m) >? 39); monad_simpl; rewrite app_nil_r; reflexivity.
Qed.

Lemma construct_not_tty (e : env) (m : pystr) (total : option Z) :
  isatty e = false ->
  construct e m total = (Return tt, mkWorld (with_closed false fresh) []).
Proof.
  intros Ht. unfold construct, __init__. monad_simpl. rewrite Ht. reflexivity.
Qed.

(** One call on an instance made on a terminal: the attributes of
    [__init__] stay, the count stays or moves to the next capped value,
    the instance stays open or becomes closed. *)
Lemma run_call_instance (c : call) (om : pystr) (total : option Z)
      (st t : Z) (cl : bool) (out : list pystr) :
  exists t' cl' out',
    snd (run_call c (mkWorld (instance om total st t cl) out))
    = mkWorld (instance om total st t' cl') out'
    /\ (t' = t \/ exists n, total = Some n /\ n <> 0 /\ t' = next_tick t n)
    /\ (cl' = cl \/ cl' = true).
Proof.
  assert (Hclose : forall e, exists t' cl' out',
    snd (close e (mkWorld (instance om total st t cl) out))
    = mkWorld (instance om total st t' cl') out'
    /\ (t' = t \/ exists n, total = Some n /\ n <> 0 /\ t' = next_tick t n)
    /\ (cl' = cl \/ cl' = true)).
  { intros e. destruct cl.
    - rewrite close_closed by reflexivity. exists t, true, out. auto.
    - erewrite close_open by reflexivity.
      exists t, true. eexists. cbn [snd]. split; [reflexivity | auto]. }
  destruct c as [e | e | e]; [| apply Hclose | apply Hclose].
  cbn [run_call]. unfold instance at 1.
  destruct (isatty e) eqn:Ht.
  - destruct (truthy total) eqn:Hc.
    + destruct total as [n |]; [| discriminate].
      assert (Hn : n <> 0).
      { cbn in Hc. intros ->. discriminate. }
      destruct (tick_determinate_shape e _ out om (short_msg om) n
                  (79 - (len (short_msg om) + 38)) t st cl eq_refl Ht Hn)
        as [[x ->] | [bar ->]].
      * exists t, cl, out. auto.
      * exists (next_tick t n), cl. eexists. cbn [snd].
        split; [reflexivity |]. split; [right; exists n; auto | auto].
    + erewrite tick_indeterminate by (reflexivity || assumption).
      exists t, cl. eexists. cbn [snd]. split; [reflexivity | auto].
  - erewrite tick_not_tty by (reflexivity || assumption).
    exists t, cl, out. auto.
Qed.

Lemma exec_cons (c : call) (cs : list call) (w : world) :
  exec (c :: cs) w = exec cs (snd (run_call c w)).
Proof. reflexivity. Qed.

Lemma exec_app (cs : list call) (c : call) (w : world) :
  exec (cs ++ [c]) w = snd (run_call c (exec cs w)).
Proof. unfold exec. rewrite fold_left_app. reflexivity. Qed.

(** Every state a terminal-made instance reaches. *)
Lemma exec_instance (cs : list call) (om : pystr) (total : option Z)
      (st : Z) :
  nonneg_total total ->
  forall (t : Z) (cl : bool) (out : list pystr),
    0 <= t <= int_count total ->
    exists t' cl' out',
      exec cs (mkWorld (instance om total st t cl) out)
      = mkWorld (instance om total st t' cl') out'
      /\ t <= t' <= int_count total.
Proof.
  intros Hnn. induction cs as [| c cs IH]; intros t cl out Ht.
  - exists t, cl, out. split; [reflexivity | lia].
  - rewrite exec_cons.
    destruct (run_call_instance c om total st t cl out)
      as (t1 & cl1 & out1 & -> & Ht1 & _).
    assert (Hb : t <= t1 <= int_count total).
    { destruct Ht1 as [-> | (n & -> & Hn & ->)]; [lia |].
      cbn [int_count nonneg_total] in *.
      pose proof (next_tick_range t n ltac:(lia) ltac:(lia)).
      pose proof (next_tick_mono t n ltac:(lia)). lia. }
    destruct (IH t1 cl1 out1 ltac:(lia)) as (t' & cl' & out' & E & Hb').
    exists t', cl', out'. split; [exact E | lia].
Qed.

(** ** Silent calls (C1) *)

Lemma quiet_call_step (c : call) (w : world) :
  has_attrs (self w) = true ->
  quiet_call (_closed (self w)) c = true ->
  exists w',
    run_call c w = (Return tt, w') /\ stderr w' = stderr w
    /\ has_attrs (self w') = true
    /\ _closed (self w') = closed_after (_closed (self w)) c.
Proof.
  intros Ha Hq.
  assert (Hclose : forall e,
    _closed (self w) || negb (isatty e) = true ->
    exists w',
      close e w = (Return tt, w') /\ stderr w' = stderr w
      /\ has_attrs (self w') = true /\ _closed (self w') = true).
  { intros e He. destruct (_closed (self w)) eqn:Hcl.
    - rewrite close_closed by assumption. exists w. auto.
    - destruct w as [s out]. cbn [self stderr] in *. open_obj s.
      cbn [_closed] in Hcl. subst cl.
      erewrite close_open by reflexivity.
      cbn [orb] in He. apply negb_true_iff in He. rewrite He.
      eexists. split; [reflexivity |]. auto. }
  destruct c as [e | e | e]; cbn [run_call quiet_call closed_after done] in *.
  - apply negb_true_iff in Hq.
    destruct w as [s out]. cbn [self stderr] in *. open_obj s.
    erewrite tick_not_tty by (reflexivity || assumption).
    eexists. split; [reflexivity |]. auto.
  - unfold done. apply Hclose, Hq.
  - unfold done. apply Hclose, Hq.
Qed.

(** C1, as amended.  On an instance made on a terminal, a run of calls
    each of which is made while the stream is not a terminal, or is a [close]
    or [done] on an instance that is already closed, raises nothing and
    writes nothing.  ([tick] on a closed instance is not among them: it
    still draws its line on a terminal.) *)
Theorem quiet_calls_silent (w : world) (cs : list call) :
  has_attrs (self w) = true ->
  quiet (_closed (self w)) cs = true ->
  fst (run cs w) = Return tt /\ stderr (snd (run cs w)) = stderr w.
Proof.
  revert w. induction cs as [| c cs IH]; intros w Ha Hq.
  - split; reflexivity.
  - cbn [quiet] in Hq. apply andb_true_iff in Hq as [Hc Hcs].
    destruct (quiet_call_step c w Ha Hc) as (w' & E & Hout & Ha' & Hcl').
    cbn [run]. unfold bind. rewrite E.
    rewrite <- Hcl' in Hcs.
    destruct (IH w' Ha' Hcs) as [R O].
    split; [exact R | congruence].
Qed.

Lemma quiet_calls_silent_witness :
  fst (run [Tick (not_tty 1); Close (not_tty 2); Close (tty 3);
            Done (tty 4); Tick (not_tty 5)] job5_world) = Return tt
  /\ stderr (snd (run [Tick (not_tty 1); Close (not_tty 2); Close (tty 3);
                       Done (tty 4); Tick (not_tty 5)] job5_world))
     = stderr job5_world.
Proof.
  apply (quiet_calls_silent job5_world); reflexivity.
Defined.

(** C1, counterexample.  [job_closed_world] is closed and its stream is a
    terminal, yet [tick] returns normally after writing a line. *)
Lemma tick_after_close_writes :
  _closed (self job_closed_world) = true
  /\ tick (tty 2500000) job_closed_world
     = (Return tt,
        mkWorld (self job_closed_world)
          (stderr job_closed_world
           ++ [hide_cursor ++ CR ++ clear_line ++ lit "[0:00:02.50] job"]))
  /\ stderr (snd (tick (tty 2500000) job_closed_world))
     <> stderr job_closed_world.
Proof.
  split; [reflexivity |]. split; [reflexivity |].
  vm_compute. discriminate.
Qed.

(** ** The scope protocol (C2) *)

Lemma enter_returns_self (w : world) : __enter__ w = (Return (self w), w).
Proof. reflexivity. Qed.

Lemma done_is_close (e : env) : done e = close e.
Proof. reflexivity. Qed.

Lemma exit_is_close (e : env) (exc : option exn) (w : world) :
  __exit__ e exc w =
  (match fst (close e w) with
   | Return _ => Return PyNone
   | Raise x => Raise x
   end, snd (close e w)).
Proof.
  unfold __exit__, bind, ret. destruct (close e w) as [[u | x] w']; reflexivity.
Qed.

(** Leaving the block runs [close] once, on the world the block left;
    the outcome of the block is the outcome of the statement unless [close]
    itself raises. *)
Lemma with_stmt_closes_once (e : env) (body : StatusDisplay -> M unit)
      (w : world) :
  with_stmt e body w =
  (match fst (close e (snd (body (self w) w))) with
   | Return _ => fst (body (self w) w)
   | Raise x => Raise x
   end, snd (close e (snd (body (self w) w)))).
Proof.
  unfold with_stmt. rewrite enter_returns_self.
  destruct (body (self w) w) as [[[] | x] w1]; cbn [fst snd].
  - unfold bind, ret. rewrite exit_is_close.
    destruct (close e w1) as [[u | y] w2]; reflexivity.
  - rewrite exit_is_close.
    destruct (close e w1) as [[u | y] w2]; reflexivity.
Qed.

(** [close] returns normally on every instance that is closed or has the
    attributes of a terminal-made one. *)
Lemma close_returns (e : env) (w : world) :
  has_attrs (self w) = true \/ _closed (self w) = true ->
  fst (close e w) = Return tt.
Proof.
  intros H. destruct (_closed (self w)) eqn:Hcl.
  - rewrite close_closed by assumption. reflexivity.
  - destruct H as [H | H]; [| discriminate].
    destruct w as [s out]. cbn [self] in *. open_obj s.
    cbn [_closed] in Hcl. subst cl.
    erewrite close_open by reflexivity. reflexivity.
Qed.

(** On an instance made on a terminal the failure of the block is the
    failure of the statement. *)
Lemma with_stmt_propagates (e : env) (body : StatusDisplay -> M unit)
      (w : world) :
  has_attrs (self (snd (body (self w) w))) = true ->
  with_stmt e body w
  = (fst (body (self w) w), snd (close e (snd (body (self w) w)))).
Proof.
  intros H. rewrite with_stmt_closes_once.
  rewrite close_returns by (left; exact H). reflexivity.
Qed.

(** C2, at the failing input.  An instance made while the stream is not
    a terminal has no [_start]: leaving a [with] block, [close] raises
    [AttributeError], on normal completion as well, and a failure of the
    block is replaced by it. *)
Theorem with_piped_raises_AttributeError :
  with_stmt (not_tty 1) (fun _ => raise (Failure 0)) piped_world
  = (Raise (AttributeError "_start"),
     mkWorld (with_closed true (self piped_world)) [])
  /\ with_stmt (not_tty 1) (fun _ => ret tt) piped_world
     = (Raise (AttributeError "_start"),
        mkWorld (with_closed true (self piped_world)) [])
  /\ tick (not_tty 1) piped_world
     = (Raise (AttributeError "_start"), piped_world).
Proof. repeat split. Qed.

(** ** Idempotent close (C3) *)

Lemma run_closed_closes (cs : list call) (w : world) :
  _closed (self w) = true -> forallb is_close cs = true ->
  run cs w = (Return tt, w).
Proof.
  intros Hcl. induction cs as [| c cs IH]; intros Hcs; [reflexivity |].
  cbn [forallb] in Hcs. apply andb_true_iff in Hcs as [Hc Hcs].
  cbn [run]. unfold bind.
  destruct c as [e | e | e]; [discriminate | |];
    cbn [run_call]; unfold done; rewrite close_closed by assumption;
    apply IH, Hcs.
Qed.

(** C3.  On an open instance made on a terminal, [close] followed by any
    number of further [close] and [done] calls leaves the same stream and
    the same instance as the first [close] alone: that call returns
    normally, marks the instance closed and, on a terminal, writes exactly
    one line. *)
Theorem close_idempotent (w : world) (e : env) (cs : list call) :
  has_attrs (self w) = true -> _closed (self w) = false ->
  forallb is_close cs = true ->
  run (Close e :: cs) w = close e w
  /\ fst (close e w) = Return tt
  /\ _closed (self (snd (close e w))) = true
  /\ (isatty e = true ->
      exists line, stderr (snd (close e w)) = stderr w ++ [line]).
Proof.
  intros Ha Hcl Hcs.
  destruct w as [s out]. cbn [self stderr] in *. open_obj s.
  cbn [_closed] in Hcl. subst cl.
  cbn [run run_call]. unfold bind.
  erewrite close_open by reflexivity.
  rewrite run_closed_closes by (reflexivity || assumption).
  repeat split.
  intros ->. cbn [snd stderr]. eexists. reflexivity.
Qed.

Lemma close_idempotent_witness :
  run [Close (tty 1500000); Close (tty 2000000); Done (tty 3000000)]
      job5_world
  = close (tty 1500000) job5_world
  /\ fst (close (tty 1500000) job5_world) = Return tt
  /\ _closed (self (snd (close (tty 1500000) job5_world))) = true
  /\ (isatty (tty 1500000) = true ->
      exists line,
        stderr (snd (close (tty 1500000) job5_world))
        = stderr job5_world ++ [line]).
Proof.
  apply (close_idempotent job5_world (tty 1500000)
           [Close (tty 2000000); Done (tty 3000000)]); reflexivity.
Defined.

(** ** The tick count (C4) *)

Lemma next_tick_min (t c : Z) : next_tick t c = Z.min (t + 1) c.
Proof. unfold next_tick. destruct (Z.gtb_spec (t + 1) c); lia. Qed.

Lemma width_range (om : pystr) :
  2 <= 79 - (len (short_msg om) + 38) <= 41.
Proof. pose proof (short_msg_len om). lia. Qed.

(** Ticks on a terminal count up to the total and stay there. *)
Lemma exec_ticks_tty (es : list env) (om : pystr) (n st : Z) :
  1 <= n < 2 ^ 42 -> forallb isatty es = true ->
  forall (t : Z) (cl : bool) (out : list pystr),
    0 <= t <= n ->
    exists out',
      exec (List.map Tick es) (mkWorld (instance om (Some n) st t cl) out)
      = mkWorld
          (instance om (Some n) st (Z.min (t + Z.of_nat (List.length es)) n)
             cl) out'.
Proof.
  intros Hn. induction es as [| e es IH]; intros Hes t cl out Ht.
  - exists out. cbn [List.map List.length Z.of_nat]. unfold exec.
    cbn [fold_left]. rewrite Z.add_0_r, Z.min_l by lia. reflexivity.
  - cbn [forallb] in Hes. apply andb_true_iff in Hes as [He Hes].
    pose proof (width_range om) as Hw.
    cbn [List.map]. rewrite exec_cons. cbn [run_call]. unfold instance at 1.
    erewrite tick_determinate_exact by (reflexivity || assumption || lia).
    cbn [snd]. unfold with_tick.
    cbn [orig_msg count msg _width _tick _start _closed].
    fold (instance om (Some n) st (next_tick t n) cl).
    pose proof (next_tick_range t n ltac:(lia) ltac:(lia)) as Hr.
    destruct (IH Hes (next_tick t n) cl
                (out ++ [tick_line e st (short_msg om)
                           (spec_bar (79 - (len (short_msg om) + 38))
                              (next_tick t n) n) (next_tick t n) n])
                ltac:(lia)) as (out' & E).
    exists out'. rewrite E. f_equal. f_equal.
    rewrite next_tick_min. cbn [List.length]. lia.
Qed.

(** ** True division of an exact multiple

    When [a] is [k * b] for a small [k], the quotient is the float [k]
    whatever the size of [b]: nothing is rounded. *)

Lemma SFdiv_core_near (ma mb : positive) :
  let d1 := Zpos (digits2_pos ma) in
  let d2 := Zpos (digits2_pos mb) in
  let s := 53 + d2 - d1 in
  0 <= d1 - d2 <= 10 ->
  SFdiv_core_binary 53 1024 (Zpos ma) 0 (Zpos mb) 0 =
  (Zpos ma * 2 ^ s / Zpos mb, - s,
   new_location (Zpos mb) (Zpos ma * 2 ^ s mod Zpos mb)).
Proof.
  intros d1 d2 s Hd.
  unfold SFdiv_core_binary. cbn [Zdigits2]. fold d1 d2.
  replace (Z.min (fexp 53 1024 (d1 + 0 - (d2 + 0))) (0 - 0)) with (- s)
    by (unfold fexp, emin, s; lia).
  replace (0 - 0 - - s) with s by lia.
  assert (Hs : 0 < s) by (unfold s; lia).
  destruct s as [| ps |] eqn:Es; try lia.
  rewrite Z.shiftl_mul_pow2 by lia.
  unfold Z.div, Z.modulo.
  destruct (Z.div_eucl (Zpos ma * 2 ^ Zpos ps) (Zpos mb)) as [q r].
  reflexivity.
Qed.

Lemma new_location_0 (n : Z) : new_location n 0 = loc_Exact.
Proof.
  unfold new_location, new_location_even, new_location_odd.
  destruct (Z.even n); reflexivity.
Qed.

Lemma shr_1_even (q : Z) :
  0 < q -> Z.even q = true ->
  shr_1 (Build_shr_record q false false)
  = Build_shr_record (q / 2) false false.
Proof.
  intros Hq He. destruct q as [| [p | p |] |]; try lia; try discriminate.
  cbn [shr_1 orb]. f_equal. rewrite Pos2Z.inj_xO.
  apply Z.div_unique with (r := 0); lia.
Qed.

Lemma binary_round_aux_exact (q e : Z) :
  2 ^ 52 <= q < 2 ^ 54 -> Z.even q = true -> -1000 <= e <= 800 ->
  exists (m2 : positive) (j : Z),
    binary_round_aux 53 1024 false q e loc_Exact
    = S754_finite false m2 (e + j)
    /\ 0 <= j <= 2 /\ Zpos m2 * 2 ^ j = q.
Proof.
  intros Hq Hev He. rewrite binary_round_aux_finish.
  assert (0 < 2 ^ 52) by (apply Z.pow_pos_nonneg; lia).
  destruct (Z_lt_le_dec q (2 ^ 53)) as [Hlt | Hge].
  - rewrite (shr_fexp_53 q e loc_Exact) by lia.
    cbn [fst snd shr_record_of_loc shr_m loc_of_shr_record
         round_nearest_even].
    destruct (finish_normal false q e) as (m2 & k & -> & Hk & Hv); try lia.
    exists m2, k. split; [reflexivity | split; [lia | exact Hv]].
  - rewrite (shr_fexp_54 q e loc_Exact) by lia.
    cbn [fst snd shr_record_of_loc].
    rewrite shr_1_even by (assumption || lia).
    cbn [shr_m loc_of_shr_record round_nearest_even].
    pose proof (Z.div_mod q 2 ltac:(lia)) as Hdm.
    assert (Hm : q mod 2 = 0).
    { rewrite Zmod_even, Hev. reflexivity. }
    assert (Hq2 : 2 ^ 52 <= q / 2 <= 2 ^ 53).
    { change (2 ^ 53) with (2 * 2 ^ 52) in *.
      change (2 ^ 54) with (2 * (2 * 2 ^ 52)) in *. lia. }
    destruct (finish_normal false (q / 2) (e + 1))
      as (m2 & k & -> & Hk & Hv); try lia.
    exists m2, (1 + k). split; [f_equal; lia | split; [lia |]].
    rewrite Z.pow_add_r by lia. change (2 ^ 1) with 2. lia.
Qed.

Lemma truediv_multiple (k b : Z) :
  0 <= k < 512 -> 0 < b ->
  exists q, truediv (k * b) b = inr q /\ int_of_float q = inr k.
Proof.
  intros Hk Hb.
  destruct b as [| mb |]; try lia.
  destruct (k * Zpos mb) as [| ma |] eqn:Ea; try lia.
  - exists (S754_zero false). split; [reflexivity |].
    cbn. f_equal. nia.
  - assert (Hk1 : 1 <= k) by nia.
    unfold truediv. cbn [sign_mag SFdiv xorb].
    pose proof (digits2_pos_bounds ma) as [A1 A2].
    pose proof (digits2_pos_bounds mb) as [B1 B2].
    set (d1 := Zpos (digits2_pos ma)) in *.
    set (d2 := Zpos (digits2_pos mb)) in *.
    assert (0 < d1 /\ 0 < d2) as [P1 P2] by (unfold d1, d2; lia).
    assert (L1 : d2 <= d1).
    { destruct (Z_le_gt_dec d2 d1) as [| G]; [assumption |].
      assert (2 ^ d1 <= 2 ^ (d2 - 1)) by (apply Z.pow_le_mono_r; lia).
      nia. }
    assert (L2 : d1 <= d2 + 9).
    { destruct (Z_le_gt_dec d1 (d2 + 9)) as [| G]; [assumption |].
      assert (2 ^ (d2 + 9) <= 2 ^ (d1 - 1)) by (apply Z.pow_le_mono_r; lia).
      rewrite Z.pow_add_r in * by lia. change (2 ^ 9) with 512 in *.
      nia. }
    rewrite SFdiv_core_near by (fold d1 d2; lia). fold d1 d2.
    set (s := 53 + d2 - d1). set (T := 2 ^ s).
    assert (0 < T) by (apply Z.pow_pos_nonneg; unfold s; lia).
    rewrite <- Ea.
    replace (k * Zpos mb * T) with (k * T * Zpos mb) by lia.
    rewrite Z.div_mul, Z.mod_mul by lia. rewrite new_location_0.
    assert (ET1 : 2 ^ (d1 - 1) * T = 2 ^ 52 * 2 ^ d2).
    { unfold T, s. rewrite <- !Z.pow_add_r by lia. f_equal. lia. }
    assert (ET2 : 2 ^ d1 * T = 2 ^ 54 * 2 ^ (d2 - 1)).
    { unfold T, s. rewrite <- !Z.pow_add_r by lia. f_equal. lia. }
    assert (0 < 2 ^ 52) by (apply Z.pow_pos_nonneg; lia).
    assert (0 < 2 ^ 54) by (apply Z.pow_pos_nonneg; lia).
    assert (0 < 2 ^ (d2 - 1)) by (apply Z.pow_pos_nonneg; lia).
    assert (Q1 : 2 ^ 52 <= k * T) by nia.
    assert (Q2 : k * T < 2 ^ 54) by nia.
    assert (Qe : Z.even (k * T) = true).
    { unfold T. replace s with (Z.succ (s - 1)) by lia.
      rewrite Z.pow_succ_r by (unfold s; lia).
      replace (k * (2 * 2 ^ (s - 1))) with (2 * (k * 2 ^ (s - 1))) by lia.
      rewrite Z.even_mul. reflexivity. }
    destruct (binary_round_aux_exact (k * T) (- s) ltac:(lia) Qe
                ltac:(unfold s; lia)) as (m2 & j & -> & Hj & Hv).
    exists (S754_finite false m2 (- s + j)). split; [reflexivity |].
    cbn [int_of_float]. f_equal.
    assert (Hsj : 0 < s - j) by (unfold s; lia).
    rewrite <- (Z.shiftr_opp_r), Z.shiftr_div_pow2 by lia.
    replace (- (- s + j)) with (s - j) by lia.
    set (P := 2 ^ (s - j)).
    assert (0 < P) by (apply Z.pow_pos_nonneg; lia).
    assert (ETP : T = P * 2 ^ j).
    { unfold T, P. rewrite <- Z.pow_add_r by lia. f_equal. lia. }
    assert (0 < 2 ^ j) by (apply Z.pow_pos_nonneg; lia).
    assert (Em : Zpos m2 = k * P) by nia.
    rewrite Em. apply Z.div_mul. lia.
Qed.

(** An excess tick: the count is at the total already.  Whatever the
    size of the total, the tick returns, leaves the count and prints a bar
    of full blocks. *)
Lemma tick_at_total (e : env) (s : StatusDisplay) (out : list pystr)
      (om m : pystr) (c wd st : Z) (cl : bool) :
  s = mkStatusDisplay (Some om) (Some (Some c)) (Some m) (Some wd) (Some c)
        (Some st) cl ->
  isatty e = true -> 1 <= c -> 0 <= wd <= 41 ->
  tick e (mkWorld s out)
  = (Return tt,
     mkWorld s (out ++ [tick_line e st m (str_mul phases_last wd) c c])).
Proof.
  intros -> Ht Hc Hw. unfold tick. monad_simpl. rewrite Ht. monad_simpl.
  assert (Hc' : (c =? 0) = false) by (apply Z.eqb_neq; lia).
  unfold truthy. rewrite Hc'. monad_simpl.
  unfold gt_count, int_count.
  replace (c + 1 >? c) with true by (symmetry; apply Z.gtb_lt; lia).
  change len_phases with 9.
  destruct (truediv_multiple wd c) as (q & -> & Hq); [lia | lia |].
  monad_simpl. rewrite Hq. monad_simpl.
  replace (9 * (wd * c)) with (9 * wd * c) by lia.
  destruct (truediv_multiple (9 * wd) c) as (q9 & -> & Hq9); [lia | lia |].
  monad_simpl. rewrite Hq9. monad_simpl.
  replace (9 * wd - 9 * wd) with 0 by lia. cbn [Z.gtb Z.compare].
  monad_simpl. change (len []) with 0.
  replace (Z.max 0 (wd - wd - 0)) with 0 by lia.
  unfold with_tick. cbn [orig_msg count msg _width _tick _start _closed].
  unfold tick_line, tick_prefix, str_count.
  cbn [str_mul Z.to_nat List.repeat List.concat].
  rewrite !app_nil_r, <- !app_assoc. reflexivity.
Qed.

(** On an instance made on a terminal, with a count within a total below
    [2^42], every call returns normally and keeps the count within the
    total. *)
Lemma run_call_returns (c : call) (om : pystr) (total : option Z)
      (st t : Z) (cl : bool) (out : list pystr) :
  nonneg_total total -> int_count total < 2 ^ 42 ->
  0 <= t <= int_count total ->
  exists t' cl' out',
    run_call c (mkWorld (instance om total st t cl) out)
    = (Return tt, mkWorld (instance om total st t' cl') out')
    /\ t <= t' <= int_count total.
Proof.
  intros Hnn Hb Ht.
  assert (Hclose : forall e, exists t' cl' out',
    close e (mkWorld (instance om total st t cl) out)
    = (Return tt, mkWorld (instance om total st t' cl') out')
    /\ t <= t' <= int_count total).
  { intros e. destruct cl.
    - rewrite close_closed by reflexivity. exists t, true, out.
      split; [reflexivity | lia].
    - unfold instance at 1. erewrite close_open by reflexivity.
      exists t, true. eexists. split; [reflexivity | lia]. }
  destruct c as [e | e | e]; [| apply Hclose | apply Hclose].
  cbn [run_call]. pose proof (width_range om) as Hw.
  destruct (isatty e) eqn:Hty.
  - destruct (truthy total) eqn:Hc.
    + destruct total as [n |]; [| discriminate].
      assert (Hn : n <> 0) by (cbn in Hc; intros ->; discriminate).
      cbn [int_count nonneg_total] in *.
      unfold instance at 1.
      erewrite tick_determinate_exact by (reflexivity || assumption || lia).
      pose proof (next_tick_range t n ltac:(lia) ltac:(lia)).
      pose proof (next_tick_mono t n ltac:(lia)).
      exists (next_tick t n), cl. eexists. split; [reflexivity | lia].
    + unfold instance at 1.
      erewrite tick_indeterminate by (reflexivity || assumption).
      exists t, cl. eexists. split; [reflexivity | lia].
  - unfold instance at 1.
    erewrite tick_not_tty by (reflexivity || assumption).
    exists t, cl, out. split; [reflexivity | lia].
Qed.

Lemma run_is_exec (cs : list call) (om : pystr) (total : option Z)
      (st : Z) :
  nonneg_total total -> int_count total < 2 ^ 42 ->
  forall (t : Z) (cl : bool) (out : list pystr),
    0 <= t <= int_count total ->
    run cs (mkWorld (instance om total st t cl) out)
    = (Return tt, exec cs (mkWorld (instance om total st t cl) out)).
Proof.
  intros Hnn Hb. induction cs as [| c cs IH]; intros t cl out Ht.
  - reflexivity.
  - destruct (run_call_returns c om total st t cl out Hnn Hb Ht)
      as (t1 & cl1 & out1 & E & Hb1).
    rewrite exec_cons. cbn [run]. unfold bind. rewrite E. cbn [snd].
    apply IH. lia.
Qed.

(** C4.  On an instance made on a terminal with a total that is absent
    or not negative, the tick count starts at 0, never decreases from one
    call to the next whatever the calls are, and in determinate mode never
    exceeds the total.  A tick made when the count has reached the total,
    whatever the total, returns normally and leaves the count at the total.
    For a total below [2^42] no call raises at all.  With a total of 5, ten
    ticks on a terminal all return normally and leave the count at 5. *)
Theorem ticksCompleted_monotone_capped (e0 : env) (m : pystr)
        (total : option Z) (cs : list call) (c : call) (e : env) :
  isatty e0 = true -> nonneg_total total ->
  _tick (self (snd (construct e0 m total))) = Some 0
  /\ (exists t t',
        _tick (self (exec cs (snd (construct e0 m total)))) = Some t
        /\ _tick (self (exec (cs ++ [c]) (snd (construct e0 m total))))
           = Some t'
        /\ 0 <= t <= t'
        /\ (truthy total = true -> t' <= int_count total))
  /\ (forall n, total = Some n -> 1 <= n ->
      _tick (self (exec cs (snd (construct e0 m total)))) = Some n ->
      fst (tick e (exec cs (snd (construct e0 m total)))) = Return tt
      /\ _tick (self (snd (tick e (exec cs (snd (construct e0 m total))))))
         = Some n)
  /\ (int_count total < 2 ^ 42 ->
      run cs (snd (construct e0 m total))
      = (Return tt, exec cs (snd (construct e0 m total)))
      /\ fst (run_call c (exec cs (snd (construct e0 m total))))
         = Return tt)
  /\ (total = Some 5 ->
      forall es, List.length es = 10%nat -> forallb isatty es = true ->
        run (List.map Tick es) (snd (construct e0 m total))
        = (Return tt,
           exec (List.map Tick es) (snd (construct e0 m total)))
        /\ _tick (self (exec (List.map Tick es)
                          (snd (construct e0 m total))))
           = Some 5).
Proof.
  intros Ht Hnn. rewrite construct_tty by assumption. cbn [snd].
  assert (H0 : 0 <= 0 <= int_count total)
    by (destruct total; cbn [int_count nonneg_total] in *; lia).
  split; [reflexivity |].
  destruct (exec_instance cs (strip m) total (now e0) Hnn 0 false
              [hide_cursor ++ lit "[-:--:--.--] " ++ strip m] H0)
    as (t & cl & out & E & Hb).
  split; [| split; [| split]].
  - rewrite exec_app, E.
    destruct (exec_instance [c] (strip m) total (now e0) Hnn t cl out
                ltac:(lia)) as (t' & cl' & out' & E' & Hb').
    rewrite exec_cons in E'. unfold exec at 1 in E'. cbn [fold_left] in E'.
    rewrite E'. exists t, t'. cbn [self _tick instance]. repeat split; lia.
  - intros n -> Hn. rewrite E. cbn [self _tick instance].
    intros [= ->]. pose proof (width_range (strip m)) as Hw.
    destruct (isatty e) eqn:Hty.
    + unfold instance.
      erewrite tick_at_total by (reflexivity || assumption || lia).
      split; reflexivity.
    + unfold instance.
      erewrite tick_not_tty by (reflexivity || assumption).
      split; reflexivity.
  - intros Hlt. split.
    + apply run_is_exec; assumption.
    + rewrite E.
      destruct (run_call_returns c (strip m) total (now e0) t cl out Hnn Hlt
                  ltac:(lia)) as (t1 & cl1 & out1 & -> & _).
      reflexivity.
  - intros -> es Hlen Hes. split.
    + apply run_is_exec; [exact Hnn | cbn; lia | cbn; lia].
    + destruct (exec_ticks_tty es (strip m) 5 (now e0) ltac:(cbn; lia) Hes
                  0 false [hide_cursor ++ lit "[-:--:--.--] " ++ strip m]
                  ltac:(lia)) as (out' & ->).
      cbn [self _tick instance]. rewrite Hlen. reflexivity.
Qed.

Lemma ticksCompleted_monotone_capped_witness :
  _tick (self (snd (construct (tty 0) (lit "job") (Some 5)))) = Some 0
  /\ (exists t t',
        _tick (self (exec [Tick (tty 1); Tick (tty 2)]
                       (snd (construct (tty 0) (lit "job") (Some 5)))))
        = Some t
        /\ _tick (self (exec ([Tick (tty 1); Tick (tty 2)]
                              ++ [Close (tty 3)])
                          (snd (construct (tty 0) (lit "job") (Some 5)))))
           = Some t'
        /\ 0 <= t <= t'
        /\ (truthy (Some 5) = true -> t' <= int_count (Some 5)))
  /\ (forall n, Some 5 = Some n -> 1 <= n ->
      _tick (self (exec [Tick (tty 1); Tick (tty 2)]
                     (snd (construct (tty 0) (lit "job") (Some 5)))))
      = Some n ->
      fst (tick (tty 4)
             (exec [Tick (tty 1); Tick (tty 2)]
                (snd (construct (tty 0) (lit "job") (Some 5)))))
      = Return tt
      /\ _tick (self (snd (tick (tty 4)
                             (exec [Tick (tty 1); Tick (tty 2)]
                                (snd (construct (tty 0) (lit "job")
                                        (Some 5)))))))
         = Some n)
  /\ (int_count (Some 5) < 2 ^ 42 ->
      run [Tick (tty 1); Tick (tty 2)]
        (snd (construct (tty 0) (lit "job") (Some 5)))
      = (Return tt,
         exec [Tick (tty 1); Tick (tty 2)]
           (snd (construct (tty 0) (lit "job") (Some 5))))
      /\ fst (run_call (Close (tty 3))
                (exec [Tick (tty 1); Tick (tty 2)]
                   (snd (construct (tty 0) (lit "job") (Some 5)))))
         = Return tt)
  /\ (Some 5 = Some 5 ->
      forall es, List.length es = 10%nat -> forallb isatty es = true ->
        run (List.map Tick es) (snd (construct (tty 0) (lit "job") (Some 5)))
        = (Return tt,
           exec (List.map Tick es)
             (snd (construct (tty 0) (lit "job") (Some 5))))
        /\ _tick (self (exec (List.map Tick es)
                          (snd (construct (tty 0) (lit "job") (Some 5)))))
           = Some 5).
Proof.
  apply (ticksCompleted_monotone_capped (tty 0) (lit "job") (Some 5)
           [Tick (tty 1); Tick (tty 2)] (Close (tty 3)) (tty 4));
    [reflexivity | cbn; lia].
Defined.

(** ** The bar (C5) *)




(** ** The counter of a tick line (C6) *)

(** C6, as amended.  A determinate-mode tick on a terminal that prints
    its line ends it with [" [" + tick + "/" + total + "]"], also when the
    count has reached the total; otherwise it raised before printing or
    assigning.  For a total below [2^42] it does print. *)
Theorem tick_counter_keeps_total (e : env) (s : StatusDisplay)
        (out : list pystr) (om m : pystr) (c wd t st : Z) (cl : bool) :
  s = mkStatusDisplay (Some om) (Some (Some c)) (Some m) (Some wd) (Some t)
        (Some st) cl ->
  isatty e = true -> c <> 0 ->
  ((exists x, tick e (mkWorld s out) = (Raise x, mkWorld s out))
   \/ (exists body,
         tick e (mkWorld s out)
         = (Return tt,
            mkWorld (with_tick (next_tick t c) s)
              (out ++ [body ++ lit " [" ++ str_int (next_tick t c)
                       ++ lit "/" ++ str_int c ++ lit "]"]))))
  /\ (1 <= c < 2 ^ 42 -> 0 <= t -> 0 <= wd <= 41 ->
      fst (tick e (mkWorld s out)) = Return tt).
Proof.
  intros Hs Ht Hc. split.
  - destruct (tick_determinate_shape e s out om m c wd t st cl Hs Ht Hc)
      as [Hraise | [bar E]]; [left; exact Hraise | right].
    exists (tick_prefix e st ++ m ++ lit " |" ++ bar ++ lit "|").
    rewrite E. unfold tick_line. rewrite <- !app_assoc. reflexivity.
  - intros Hb Htk Hw.
    rewrite (tick_determinate_exact e s out om m c wd t st cl) by assumption.
    reflexivity.
Qed.

Lemma tick_counter_keeps_total_witness :
  ((exists x, tick (tty 1500000) job1_world = (Raise x, job1_world))
   \/ (exists body,
         tick (tty 1500000) job1_world
         = (Return tt,
            mkWorld (with_tick (next_tick 0 1) (self job1_world))
              (stderr job1_world
               ++ [body ++ lit " [" ++ str_int (next_tick 0 1)
                   ++ lit "/" ++ str_int 1 ++ lit "]"]))))
  /\ (1 <= 1 < 2 ^ 42 -> 0 <= 0 -> 0 <= 38 <= 41 ->
      fst (tick (tty 1500000) job1_world) = Return tt).
Proof.
  apply (tick_counter_keeps_total (tty 1500000) (self job1_world)
           (stderr job1_world) (lit "job") (lit "job") 1 38 0 0 false);
    [reflexivity | reflexivity | lia].
Defined.

(** C6, counterexample.  With a total of 1 the first tick reaches the
    total, and the line still ends with ["[1/1]"], not with ["[1]"]. *)
Lemma tick_at_total_prints_total :
  tick (tty 1500000) job1_world
  = (Return tt,
     mkWorld (with_tick 1 (self job1_world))
       (stderr job1_world
        ++ [hide_cursor ++ CR ++ clear_line ++ lit "[0:00:01.50] job |"
            ++ str_mul phases_last 38 ++ lit "| [1/1]"]))
  /\ _tick (self (snd (tick (tty 1500000) job1_world))) = Some 1
  /\ count (self job1_world) = Some (Some 1)
  /\ stderr (snd (tick (tty 1500000) job1_world))
     <> stderr job1_world
        ++ [hide_cursor ++ CR ++ clear_line ++ lit "[0:00:01.50] job |"
            ++ str_mul phases_last 38 ++ lit "| [1]"].
Proof.
  split; [vm_compute; reflexivity |].
  split; [vm_compute; reflexivity |].
  split; [vm_compute; reflexivity |].
  vm_compute. discriminate.
Qed.

(** ** The counter of the final line (C7) *)

(** C7, as amended.  [close] on an open instance on a terminal prints the
    final line with the counter if and only if the total is set and not 0,
    whatever the number of ticks: [" [" + ticks + "]"] when the count equals
    the total and [" [" + ticks + "/" + total + "]"] otherwise, so
    [" [0/total]"] when no tick occurred. *)
Theorem close_counter_iff_total (e : env) (s : StatusDisplay)
        (out : list pystr) (om m : pystr) (c : option Z) (wd t st : Z) :
  s = mkStatusDisplay (Some om) (Some c) (Some m) (Some wd) (Some t)
        (Some st) false ->
  isatty e = true ->
  close e (mkWorld s out)
  = (Return tt,
     mkWorld (with_closed true s)
       (out
        ++ [(CR ++ clear_line ++ lit "["
             ++ elapsed_field (Timedelta.sub (now e) st) ++ lit "] " ++ om
             ++ match c with
                | Some n =>
                    if n =? 0 then []
                    else lit " [" ++ str_int t
                         ++ (if t =? n then [] else lit "/" ++ str_int n)
                         ++ lit "]"
                | None => []
                end
             ++ show_cursor) ++ newline])).
Proof.
  intros Hs Ht.
  rewrite (close_open e s out om m c wd t st Hs), Ht.
  unfold close_line, close_counter, truthy, ne_count, str_count.
  destruct c as [n |]; [| reflexivity].
  destruct (n =? 0); [reflexivity |]. destruct (t =? n); reflexivity.
Qed.

Lemma close_counter_iff_total_witness :
  close (tty 1500000) job5_world
  = (Return tt,
     mkWorld (with_closed true (self job5_world))
       (stderr job5_world
        ++ [(CR ++ clear_line ++ lit "["
             ++ elapsed_field (Timedelta.sub (now (tty 1500000)) 0)
             ++ lit "] " ++ lit "job"
             ++ match Some 5 with
                | Some n =>
                    if n =? 0 then []
                    else lit " [" ++ str_int 0
                         ++ (if 0 =? n then [] else lit "/" ++ str_int n)
                         ++ lit "]"
                | None => []
                end
             ++ show_cursor) ++ newline])).
Proof.
  apply (close_counter_iff_total (tty 1500000) (self job5_world)
           (stderr job5_world) (lit "job") (lit "job") (Some 5) 38 0 0);
    reflexivity.
Defined.

(** C7, counterexample.  [StatusDisplay("job", 5)] closed before any
    tick: the final line carries the counter [" [0/5]"]. *)
Lemma close_without_tick_prints_counter :
  _tick (self job5_world) = Some 0
  /\ close (tty 1500000) job5_world
     = (Return tt,
        mkWorld (with_closed true (self job5_world))
          (stderr job5_world
           ++ [CR ++ clear_line ++ lit "[0:00:01.50] job [0/5]"
               ++ show_cursor ++ newline]))
  /\ stderr (snd (close (tty 1500000) job5_world))
     <> stderr job5_world
        ++ [CR ++ clear_line ++ lit "[0:00:01.50] job"
            ++ show_cursor ++ newline].
Proof.
  split; [reflexivity |].
  split; [vm_compute; reflexivity |].
  vm_compute. discriminate.
Qed.

(** ** The elapsed time (C8) *)

Ltac digit_cases d H :=
  assert (d = 0 \/ d = 1 \/ d = 2 \/ d = 3 \/ d = 4 \/ d = 5 \/ d = 6
          \/ d = 7 \/ d = 8 \/ d = 9)
    as [-> | [-> | [-> | [-> | [-> | [-> | [-> | [-> | [-> | ->]]]]]]]]]
    by (unfold is_digit in H; lia).

Lemma uint_digits_of_digits (ds : list Z) :
  Forall is_digit ds -> uint_digits (uint_of_digits ds) = numeral ds.
Proof.
  induction 1 as [| d ds Hd _ IH]; [reflexivity |].
  cbn [uint_of_digits numeral List.map]. fold (numeral ds). rewrite <- IH.
  digit_cases d Hd; reflexivity.
Qed.

Lemma of_uint_acc_digits (ds : list Z) :
  Forall is_digit ds ->
  forall acc,
    Zpos (Pos.of_uint_acc (uint_of_digits ds) acc)
    = fold_left (fun a d => 10 * a + d) ds (Zpos acc).
Proof.
  induction 1 as [| d ds Hd _ IH]; intros acc; [reflexivity |].
  cbn [uint_of_digits fold_left].
  digit_cases d Hd; cbn [digit_uint Pos.of_uint_acc]; rewrite IH; f_equal; lia.
Qed.

Lemma of_uint_digits (ds : list Z) :
  Forall is_digit ds ->
  Z.of_N (Pos.of_uint (uint_of_digits ds)) = numeral_value ds.
Proof.
  induction 1 as [| d ds Hd Hds IH]; [reflexivity |].
  unfold numeral_value in *. cbn [uint_of_digits fold_left].
  digit_cases d Hd; cbn [digit_uint Pos.of_uint Z.of_N];
    [exact IH | rewrite of_uint_acc_digits by assumption; reflexivity ..].
Qed.

Lemma str_int_to_uint (v : Z) :
  0 <= v -> str_int v = uint_digits (N.to_uint (Z.to_N v)).
Proof. destruct v; [reflexivity | reflexivity | lia]. Qed.

Lemma uint_digits_nzhead (u : Decimal.uint) :
  exists k,
    uint_digits u = List.repeat 48%N k ++ uint_digits (nzhead u).
Proof.
  induction u; try (exists 0%nat; reflexivity).
  destruct IHu as [k E]. exists (S k). cbn [uint_digits nzhead List.repeat].
  rewrite E. reflexivity.
Qed.

Lemma pad_unorm (u : Decimal.uint) :
  u <> Nil ->
  List.repeat 48%N (List.length (uint_digits u)
                    - List.length (uint_digits (unorm u)))
  ++ uint_digits (unorm u)
  = uint_digits u.
Proof.
  intros Hu. destruct (uint_digits_nzhead u) as [k E].
  unfold unorm. destruct (nzhead u) eqn:Hz.
  1: { cbn [uint_digits] in *. rewrite app_nil_r in E. rewrite E.
       rewrite repeat_length.
       destruct k as [| k].
       - destruct u; discriminate || contradiction.
       - cbn [uint_digits List.length].
         replace (S k - 1)%nat with k by lia.
         rewrite <- repeat_cons. reflexivity. }
  all: rewrite E, length_app, repeat_length;
    match goal with
    | |- List.repeat _ ?n ++ _ = _ => replace n with k by lia
    end; reflexivity.
Qed.

(** ["%0wd"] prints the value of a numeral of [w] digits as the numeral. *)
Lemma fmt_0d_numeral (ds : list Z) :
  Forall is_digit ds -> ds <> [] ->
  fmt_0d (List.length ds) (numeral_value ds) = numeral ds.
Proof.
  intros Hds Hne. unfold fmt_0d.
  assert (Hv : 0 <= numeral_value ds)
    by (rewrite <- of_uint_digits by assumption; lia).
  rewrite str_int_to_uint by assumption.
  rewrite <- (of_uint_digits ds) by assumption. rewrite N2Z.id.
  rewrite Unsigned.to_of.
  rewrite <- (uint_digits_of_digits ds) by assumption.
  replace (List.length ds)
    with (List.length (uint_digits (uint_of_digits ds)))
    by (rewrite uint_digits_of_digits by assumption;
        unfold numeral; apply length_map).
  apply pad_unorm.
  destruct ds as [| d ds]; [contradiction |].
  inversion Hds as [| ? ? Hd _]; subst.
  cbn [uint_of_digits]. digit_cases d Hd; discriminate.
Qed.

Lemma fmt_0d_2 (n : Z) : 0 <= n < 100 -> fmt_0d 2 n = two_digits n.
Proof.
  intros Hn.
  pose proof (Z.div_mod n 10 ltac:(lia)) as E.
  pose proof (Z.mod_pos_bound n 10 ltac:(lia)) as B.
  assert (B1 : 0 <= n / 10 <= 9) by lia.
  unfold two_digits.
  rewrite <- (fmt_0d_numeral [n / 10; n mod 10]);
    [| repeat constructor; unfold is_digit; lia | discriminate].
  cbn [List.length]. f_equal. unfold numeral_value. cbn [fold_left]. lia.
Qed.

Lemma fmt_0d_6 (n : Z) :
  0 <= n < 1000000 ->
  fmt_0d 6 n
  = two_digits (n / 10000)
    ++ numeral [n / 1000 mod 10; n / 100 mod 10; n / 10 mod 10; n mod 10].
Proof.
  intros Hn.
  set (n1 := n / 10). set (n2 := n1 / 10). set (n3 := n2 / 10).
  set (n4 := n3 / 10). set (n5 := n4 / 10).
  pose proof (Z.div_mod n 10 ltac:(lia)) as E0.
  pose proof (Z.mod_pos_bound n 10 ltac:(lia)) as B0.
  pose proof (Z.div_mod n1 10 ltac:(lia)) as E1.
  pose proof (Z.mod_pos_bound n1 10 ltac:(lia)) as B1.
  pose proof (Z.div_mod n2 10 ltac:(lia)) as E2.
  pose proof (Z.mod_pos_bound n2 10 ltac:(lia)) as B2.
  pose proof (Z.div_mod n3 10 ltac:(lia)) as E3.
  pose proof (Z.mod_pos_bound n3 10 ltac:(lia)) as B3.
  pose proof (Z.div_mod n4 10 ltac:(lia)) as E4.
  pose proof (Z.mod_pos_bound n4 10 ltac:(lia)) as B4.
  fold n1 in E0. fold n2 in E1. fold n3 in E2. fold n4 in E3. fold n5 in E4.
  assert (A1 : n / 100 = n2) by (unfold n2, n1; rewrite Z.div_div by lia; reflexivity).
  assert (A2 : n / 1000 = n3) by (unfold n3, n2, n1; rewrite !Z.div_div by lia; reflexivity).
  assert (A3 : n / 10000 = n4) by (unfold n4, n3, n2, n1; rewrite !Z.div_div by lia; reflexivity).
  rewrite A1, A2, A3. fold n1.
  assert (B5 : 0 <= n5 <= 9) by lia.
  unfold two_digits. fold n5.
  change (numeral [n5; n4 mod 10]
          ++ numeral [n3 mod 10; n2 mod 10; n1 mod 10; n mod 10])
    with (numeral [n5; n4 mod 10; n3 mod 10; n2 mod 10; n1 mod 10; n mod 10]).
  rewrite <- (fmt_0d_numeral
                [n5; n4 mod 10; n3 mod 10; n2 mod 10; n1 mod 10; n mod 10]);
    [| repeat constructor; unfold is_digit; lia | discriminate].
  cbn [List.length]. f_equal. unfold numeral_value. cbn [fold_left]. lia.
Qed.

Lemma drop_last_4 (p : pystr) (a b c d : N) :
  drop_last 4 (p ++ [a; b; c; d]) = p.
Proof.
  unfold drop_last. rewrite length_app. cbn [List.length].
  replace (List.length p + 4 - 4)%nat with (List.length p + 0)%nat by lia.
  rewrite firstn_app_2. cbn [firstn]. apply app_nil_r.
Qed.

(** Below one day and off the whole second, the field is [H:MM:SS.cc]. *)
Lemma elapsed_field_centiseconds (us : Z) :
  0 <= us < 86400000000 -> us mod 1000000 <> 0 ->
  elapsed_field (Timedelta.of_microseconds us)
  = str_int (us / 1000000 / 60 / 60) ++ lit ":"
    ++ two_digits (us / 1000000 / 60 mod 60) ++ lit ":"
    ++ two_digits (us / 1000000 mod 60) ++ lit "."
    ++ two_digits (us mod 1000000 / 10000).
Proof.
  intros Hus Hfrac.
  unfold elapsed_field, Timedelta.of_microseconds, Timedelta.str.
  cbn [Timedelta.days Timedelta.seconds Timedelta.microseconds].
  set (s := us / 1000000).
  assert (Hs : 0 <= s < 86400).
  { unfold s. split; [apply Z.div_pos; lia |].
    apply Z.div_lt_upper_bound; lia. }
  rewrite (Z.div_small s 86400) by lia. cbn [Z.eqb].
  rewrite (Z.mod_small s 86400) by lia.
  replace (us mod 1000000 =? 0) with false
    by (symmetry; apply Z.eqb_neq; exact Hfrac).
  pose proof (Z.mod_pos_bound us 1000000 ltac:(lia)) as Hm.
  pose proof (Z.mod_pos_bound s 60 ltac:(lia)) as Hss.
  pose proof (Z.mod_pos_bound (s / 60) 60 ltac:(lia)) as Hmm.
  rewrite (fmt_0d_2 (s mod 60)) by lia.
  rewrite (fmt_0d_2 (s / 60 mod 60)) by lia.
  rewrite fmt_0d_6 by lia.
  set (f := us mod 1000000).
  unfold numeral. cbn [List.map].
  rewrite !app_assoc. rewrite drop_last_4. reflexivity.
Qed.

(** C8, at the failing input.  Five seconds after the start, to the
    microsecond, [str(elapsed)] is ["0:00:05"] with no fraction, and
    dropping its last four characters leaves ["0:0"]: [tick] and [close]
    print ["[0:0] "] where ["[0:00:05.00] "] is specified.  One microsecond
    later the field is ["0:00:05.00"]. *)
Theorem elapsed_whole_seconds_cut :
  Timedelta.str (Timedelta.sub 5000000 0) = lit "0:00:05"
  /\ elapsed_field (Timedelta.sub 5000000 0) = lit "0:0"
  /\ tick (tty 5000000) job_world
     = (Return tt,
        mkWorld (self job_world)
          (stderr job_world
           ++ [hide_cursor ++ CR ++ clear_line ++ lit "[0:0] job"]))
  /\ close (tty 5000000) job_world
     = (Return tt,
        mkWorld (with_closed true (self job_world))
          (stderr job_world
           ++ [CR ++ clear_line ++ lit "[0:0] job" ++ show_cursor
               ++ newline]))
  /\ elapsed_field (Timedelta.sub 5000001 0) = lit "0:00:05.00".
Proof. repeat split. Qed.

(** ** The message (C9) and the bar width (C10) *)

(** Whatever the calls, an instance made on a terminal keeps the
    attributes [__init__] gave it. *)
Lemma exec_keeps_instance (cs : list call) (om : pystr) (total : option Z)
      (st : Z) :
  forall (t : Z) (cl : bool) (out : list pystr),
    exists t' cl' out',
      exec cs (mkWorld (instance om total st t cl) out)
      = mkWorld (instance om total st t' cl') out'.
Proof.
  induction cs as [| c cs IH]; intros t cl out.
  - exists t, cl, out. reflexivity.
  - rewrite exec_cons.
    destruct (run_call_instance c om total st t cl out)
      as (t1 & cl1 & out1 & -> & _).
    apply IH.
Qed.

(** C9.  On a terminal, [__init__] prints the whole trimmed message and
    stores as [msg] its first 36 characters and ["..."], 39 characters in
    all, when it is longer than 39 characters, and the trimmed message
    itself otherwise.  After any calls, [close] on the open instance prints
    the whole trimmed message, and a determinate-mode tick that prints,
    which it does for a total below [2^42], prints [msg]. *)
Theorem message_truncation (e0 : env) (m : pystr) (total : option Z)
        (cs : list call) (e : env) :
  isatty e0 = true -> isatty e = true ->
  stderr (snd (construct e0 m total))
  = [hide_cursor ++ lit "[-:--:--.--] " ++ strip m]
  /\ msg (self (exec cs (snd (construct e0 m total))))
     = Some (short_msg (strip m))
  /\ (39 < len (strip m) ->
      short_msg (strip m) = slice_to 36 (strip m) ++ lit "..."
      /\ len (short_msg (strip m)) = 39)
  /\ (len (strip m) <= 39 -> short_msg (strip m) = strip m)
  /\ (_closed (self (exec cs (snd (construct e0 m total)))) = false ->
      exists t,
        close e (exec cs (snd (construct e0 m total)))
        = (Return tt,
           mkWorld
             (with_closed true (self (exec cs (snd (construct e0 m total)))))
             (stderr (exec cs (snd (construct e0 m total)))
              ++ [close_line e (now e0) (strip m) total t])))
  /\ (forall c, total = Some c -> c <> 0 ->
      ((exists x,
          tick e (exec cs (snd (construct e0 m total)))
          = (Raise x, exec cs (snd (construct e0 m total))))
       \/ (exists bar t,
             snd (tick e (exec cs (snd (construct e0 m total))))
             = mkWorld
                 (with_tick t (self (exec cs (snd (construct e0 m total)))))
                 (stderr (exec cs (snd (construct e0 m total)))
                  ++ [tick_line e (now e0) (short_msg (strip m)) bar t c])))
      /\ (1 <= c < 2 ^ 42 ->
          fst (tick e (exec cs (snd (construct e0 m total)))) = Return tt)).
Proof.
  intros Ht0 Ht. rewrite construct_tty by assumption. cbn [snd stderr].
  split; [reflexivity |].
  destruct (exec_keeps_instance cs (strip m) total (now e0) 0 false
              [hide_cursor ++ lit "[-:--:--.--] " ++ strip m])
    as (t & cl & out & E).
  rewrite E. cbn [self stderr].
  split; [reflexivity |].
  split; [apply short_msg_long |].
  split; [apply short_msg_short |].
  split.
  - cbn [instance _closed]. intros ->. exists t.
    erewrite close_open by reflexivity. rewrite Ht. reflexivity.
  - intros c -> Hc. split.
    + destruct (tick_determinate_shape e _ out (strip m)
                  (short_msg (strip m)) c
                  (79 - (len (short_msg (strip m)) + 38)) t (now e0) cl
                  eq_refl Ht Hc) as [[x Ex] | [bar Eb]].
      * left. exists x. exact Ex.
      * right. exists bar, (next_tick t c). unfold instance.
        rewrite Eb. reflexivity.
    + intros Hb.
      assert (Hnn : nonneg_total (Some c)) by (cbn; lia).
      destruct (exec_instance cs (strip m) (Some c) (now e0) Hnn 0 false
                  [hide_cursor ++ lit "[-:--:--.--] " ++ strip m]
                  ltac:(cbn; lia)) as (t2 & cl2 & out2 & E2 & Hb2).
      rewrite E in E2. injection E2 as Etk _ _.
      subst t2. pose proof (width_range (strip m)) as Hw.
      unfold instance.
      erewrite tick_determinate_exact
        by (reflexivity || assumption || lia).
      reflexivity.
Qed.

Lemma message_truncation_witness :
  stderr (snd (construct (tty 0) msg50 (Some 5)))
  = [hide_cursor ++ lit "[-:--:--.--] " ++ strip msg50]
  /\ msg (self (exec [Tick (tty 1)] (snd (construct (tty 0) msg50 (Some 5)))))
     = Some (short_msg (strip msg50))
  /\ (39 < len (strip msg50) ->
      short_msg (strip msg50) = slice_to 36 (strip msg50) ++ lit "..."
      /\ len (short_msg (strip msg50)) = 39)
  /\ (len (strip msg50) <= 39 -> short_msg (strip msg50) = strip msg50)
  /\ (_closed (self (exec [Tick (tty 1)]
                       (snd (construct (tty 0) msg50 (Some 5))))) = false ->
      exists t,
        close (tty 2) (exec [Tick (tty 1)]
                         (snd (construct (tty 0) msg50 (Some 5))))
        = (Return tt,
           mkWorld
             (with_closed true
                (self (exec [Tick (tty 1)]
                         (snd (construct (tty 0) msg50 (Some 5))))))
             (stderr (exec [Tick (tty 1)]
                        (snd (construct (tty 0) msg50 (Some 5))))
              ++ [close_line (tty 2) (now (tty 0)) (strip msg50) (Some 5)
                    t])))
  /\ (forall c, Some 5 = Some c -> c <> 0 ->
      ((exists x,
          tick (tty 2) (exec [Tick (tty 1)]
                          (snd (construct (tty 0) msg50 (Some 5))))
          = (Raise x,
             exec [Tick (tty 1)] (snd (construct (tty 0) msg50 (Some 5)))))
       \/ (exists bar t,
             snd (tick (tty 2) (exec [Tick (tty 1)]
                                  (snd (construct (tty 0) msg50 (Some 5)))))
             = mkWorld
                 (with_tick t
                    (self (exec [Tick (tty 1)]
                             (snd (construct (tty 0) msg50 (Some 5))))))
                 (stderr (exec [Tick (tty 1)]
                            (snd (construct (tty 0) msg50 (Some 5))))
                  ++ [tick_line (tty 2) (now (tty 0))
                        (short_msg (strip msg50)) bar t c])))
      /\ (1 <= c < 2 ^ 42 ->
          fst (tick (tty 2) (exec [Tick (tty 1)]
                               (snd (construct (tty 0) msg50 (Some 5)))))
          = Return tt)).
Proof.
  apply (message_truncation (tty 0) msg50 (Some 5) [Tick (tty 1)] (tty 2));
    reflexivity.
Defined.

(** C10.  On an instance made on a terminal, after any calls, [_width] is
    [79 - (len(msg) + 38)], [msg] has at most 39 characters, and the width
    is at least 2 (and at most 41): a bar of no cells or fewer never
    occurs. *)
Theorem barWidth_at_least_2 (e0 : env) (m : pystr) (total : option Z)
        (cs : list call) :
  isatty e0 = true ->
  exists dm wd,
    msg (self (exec cs (snd (construct e0 m total)))) = Some dm
    /\ _width (self (exec cs (snd (construct e0 m total)))) = Some wd
    /\ wd = 79 - (len dm + 38)
    /\ len dm <= 39
    /\ 2 <= wd <= 41.
Proof.
  intros Ht0. rewrite construct_tty by assumption. cbn [snd].
  destruct (exec_keeps_instance cs (strip m) total (now e0) 0 false
              [hide_cursor ++ lit "[-:--:--.--] " ++ strip m])
    as (t & cl & out & ->).
  exists (short_msg (strip m)), (79 - (len (short_msg (strip m)) + 38)).
  cbn [self instance msg _width].
  pose proof (short_msg_len (strip m)). repeat split; lia.
Qed.

Lemma barWidth_at_least_2_witness :
  exists dm wd,
    msg (self (exec [Tick (tty 1); Close (tty 2)]
                 (snd (construct (tty 0) msg50 (Some 5))))) = Some dm
    /\ _width (self (exec [Tick (tty 1); Close (tty 2)]
                       (snd (construct (tty 0) msg50 (Some 5))))) = Some wd
    /\ wd = 79 - (len dm + 38)
    /\ len dm <= 39
    /\ 2 <= wd <= 41.
Proof.
  apply (barWidth_at_least_2 (tty 0) msg50 (Some 5)
           [Tick (tty 1); Close (tty 2)]); reflexivity.
Defined.

(** * More on StatusDisplay *)

(** ** Indeterminate mode *)

(** X9.  On an instance made on a terminal without a total, or with a
    total of 0, after any calls, the tick count is still 0 and a tick on a
    terminal returns normally, changes no attribute and prints the elapsed
    time and the whole trimmed message, never its short form, with neither
    bar nor counter. *)
Theorem tick_indeterminate_full_message (e0 : env) (m : pystr)
        (total : option Z) (cs : list call) (e : env) :
  isatty e0 = true -> isatty e = true -> truthy total = false ->
  _tick (self (exec cs (snd (construct e0 m total)))) = Some 0
  /\ tick e (exec cs (snd (construct e0 m total)))
     = (Return tt,
        mkWorld (self (exec cs (snd (construct e0 m total))))
          (stderr (exec cs (snd (construct e0 m total)))
           ++ [tick_prefix e (now e0) ++ strip m])).
Proof.
  intros Ht0 Ht Hc. rewrite construct_tty by assumption. cbn [snd].
  assert (Hnn : nonneg_total total /\ int_count total = 0).
  { destruct total as [n |]; cbn in *; [| split; [exact I | reflexivity]].
    destruct (Z.eqb_spec n 0); [subst; split; [lia | reflexivity] |
                                discriminate]. }
  destruct Hnn as [Hnn Hz].
  destruct (exec_instance cs (strip m) total (now e0) Hnn 0 false
              [hide_cursor ++ lit "[-:--:--.--] " ++ strip m]
              ltac:(lia)) as (t & cl & out & -> & Hb).
  assert (t = 0) by lia. subst t.
  split; [reflexivity |]. cbn [self stderr].
  unfold instance. erewrite tick_indeterminate by (reflexivity || assumption).
  reflexivity.
Qed.

Lemma tick_indeterminate_full_message_witness :
  _tick (self (exec [Tick (tty 1); Tick (tty 2)]
                 (snd (construct (tty 0) msg50 None)))) = Some 0
  /\ tick (tty 3) (exec [Tick (tty 1); Tick (tty 2)]
                     (snd (construct (tty 0) msg50 None)))
     = (Return tt,
        mkWorld (self (exec [Tick (tty 1); Tick (tty 2)]
                         (snd (construct (tty 0) msg50 None))))
          (stderr (exec [Tick (tty 1); Tick (tty 2)]
                     (snd (construct (tty 0) msg50 None)))
           ++ [tick_prefix (tty 3) (now (tty 0)) ++ strip msg50])).
Proof.
  apply (tick_indeterminate_full_message (tty 0) msg50 None
           [Tick (tty 1); Tick (tty 2)] (tty 3)); reflexivity.
Defined.

(** ** The bar fills its width *)

Lemma len_app (a b : pystr) : len (a ++ b) = len a + len b.
Proof. unfold len. rewrite length_app. lia. Qed.

Lemma len_str_mul_char (c : N) (n : Z) :
  0 <= n -> len (str_mul [c] n) = n.
Proof.
  intros Hn. unfold str_mul, len.
  assert (H : forall k, List.length (List.concat (List.repeat [c] k)) = k).
  { induction k as [| k IH]; [reflexivity |].
    cbn [List.repeat List.concat Datatypes.app List.length].
    rewrite IH. reflexivity. }
  rewrite H. apply Z2Nat.id, Hn.
Qed.

Lemma filledLength_range (w t c : Z) :
  0 <= w -> 0 <= t <= c -> 1 <= c ->
  0 <= filledLength w t c <= w
  /\ (phaseIndex w t c <> 0 -> filledLength w t c < w)
  /\ (t = c -> filledLength w t c = w /\ phaseIndex w t c = 0).
Proof.
  intros Hw Ht Hc. unfold phaseIndex, filledLength.
  assert (Hf : 0 <= w * t / c <= w).
  { split; [apply Z.div_pos; nia |].
    apply Z.div_le_upper_bound; nia. }
  split; [exact Hf |]. split.
  - intros Hp.
    destruct (Z.eq_dec (w * t / c) w) as [E | Hne]; [| lia].
    exfalso. apply Hp.
    assert (Hge : c * w <= w * t).
    { rewrite <- E at 1. apply Z.mul_div_le. lia. }
    assert (Hx : w * t = w * c) by nia.
    rewrite <- Z.mul_assoc, Hx, Z.mul_assoc.
    rewrite !Z.div_mul by lia. lia.
  - intros ->. rewrite <- Z.mul_assoc, Z.mul_assoc.
    rewrite !Z.div_mul by lia. lia.
Qed.

Lemma spec_bar_len (w t c : Z) :
  0 <= w -> 0 <= t <= c -> 1 <= c ->
  len (spec_bar w t c) = w
  /\ (t = c -> spec_bar w t c = str_mul phases_last w).
Proof.
  intros Hw Ht Hc.
  destruct (filledLength_range w t c Hw Ht Hc) as (Hf & Hlt & Hfull).
  pose proof (phaseIndex_range w t c ltac:(lia)) as Hp.
  unfold spec_bar.
  set (f := filledLength w t c) in *. set (i := phaseIndex w t c) in *.
  split.
  - destruct (Z.eqb_spec i 0) as [Hi | Hi].
    + rewrite !len_app. change phases_last with [9608%N].
      change (lit " ") with [32%N]. change (len []) with 0.
      rewrite !len_str_mul_char by lia. lia.
    + destruct (phases_at_partial i ltac:(lia)) as [_ Hl].
      rewrite !len_app, Hl. change phases_last with [9608%N].
      change (lit " ") with [32%N].
      specialize (Hlt Hi).
      rewrite !len_str_mul_char by lia. lia.
  - intros Htc. destruct (Hfull Htc) as [Ef Ei]. rewrite Ei, Ef.
    cbn [Z.eqb]. change (len []) with 0.
    replace (Z.max 0 (w - w - 0)) with 0 by lia.
    cbn [str_mul Z.to_nat List.repeat List.concat]. rewrite !app_nil_r.
    reflexivity.
Qed.

(** X10.  For a total from 1 to below [2^42], the bar a tick prints has
    exactly as many characters as the bar is wide, full blocks, partial
    glyph and blanks together, and when the count reaches the total it
    consists of full blocks only. *)
Theorem tick_bar_fills_width (e : env) (s : StatusDisplay)
        (out : list pystr) (om m : pystr) (c wd t st : Z) (cl : bool) :
  s = mkStatusDisplay (Some om) (Some (Some c)) (Some m) (Some wd) (Some t)
        (Some st) cl ->
  isatty e = true -> 1 <= c < 2 ^ 42 -> 0 <= t -> 0 <= wd <= 41 ->
  exists bar,
    tick e (mkWorld s out)
    = (Return tt,
       mkWorld (with_tick (next_tick t c) s)
         (out ++ [tick_line e st m bar (next_tick t c) c]))
    /\ len bar = wd
    /\ (next_tick t c = c -> bar = str_mul phases_last wd).
Proof.
  intros Hs Ht Hc Htk Hw.
  exists (spec_bar wd (next_tick t c) c).
  split; [apply (tick_determinate_exact e s out om m c wd t st cl);
          assumption |].
  pose proof (next_tick_range t c Htk ltac:(lia)).
  apply spec_bar_len; lia.
Qed.

Lemma tick_bar_fills_width_witness :
  exists bar,
    tick (tty 1500000) (mkWorld bar10_instance [])
    = (Return tt,
       mkWorld (with_tick (next_tick 32 80) bar10_instance)
         ([] ++ [tick_line (tty 1500000) 0
                   (short_msg (lit "0123456789012345678901234567890"))
                   bar (next_tick 32 80) 80]))
    /\ len bar = 10
    /\ (next_tick 32 80 = 80 -> bar = str_mul phases_last 10).
Proof.
  apply (tick_bar_fills_width (tty 1500000) bar10_instance []
           (lit "0123456789012345678901234567890")
           (short_msg (lit "0123456789012345678901234567890"))
           80 10 32 0 false);
    [reflexivity | reflexivity | cbn; lia | lia | lia].
Defined.

(** ** A whole run *)

(** X11.  [StatusDisplay(m, n)] on a terminal with a total from 1 to below
    [2^42], then [k] ticks on a terminal, then [close] on a terminal: the
    final line shows the whole trimmed message and the counter
    [" [k/n]"] when fewer than [n] ticks were made and [" [n]"] otherwise,
    and ends with the sequence that shows the cursor and a newline. *)
Theorem close_after_ticks (e0 : env) (m : pystr) (n : Z) (es : list env)
        (e : env) :
  isatty e0 = true -> forallb isatty es = true -> isatty e = true ->
  1 <= n < 2 ^ 42 ->
  exists w,
    exec (List.map Tick es) (snd (construct e0 m (Some n))) = w
    /\ close e w
       = (Return tt,
          mkWorld (with_closed true (self w))
            (stderr w
             ++ [(CR ++ clear_line ++ lit "["
                  ++ elapsed_field (Timedelta.sub (now e) (now e0))
                  ++ lit "] " ++ strip m
                  ++ (if Z.of_nat (List.length es) <? n
                      then lit " [" ++ str_int (Z.of_nat (List.length es))
                           ++ lit "/" ++ str_int n ++ lit "]"
                      else lit " [" ++ str_int n ++ lit "]")
                  ++ show_cursor) ++ newline])).
Proof.
  intros Ht0 Hes Ht Hn. rewrite construct_tty by assumption. cbn [snd].
  destruct (exec_ticks_tty es (strip m) n (now e0) Hn Hes 0 false
              [hide_cursor ++ lit "[-:--:--.--] " ++ strip m]
              ltac:(lia)) as (out & E).
  eexists. split; [exact E |].
  unfold instance. erewrite close_open by reflexivity. rewrite Ht.
  cbn [self stderr]. f_equal. f_equal. f_equal. f_equal.
  unfold close_line, close_counter, truthy, ne_count, str_count.
  replace (n =? 0) with false by (symmetry; apply Z.eqb_neq; lia).
  cbn [negb Z.add].
  destruct (Z.ltb_spec (Z.of_nat (List.length es)) n) as [Hlt | Hge].
  - rewrite Z.min_l by lia.
    replace (Z.of_nat (List.length es) =? n) with false
      by (symmetry; apply Z.eqb_neq; lia).
    cbn [negb]. rewrite <- !app_assoc. reflexivity.
  - rewrite Z.min_r by lia. rewrite Z.eqb_refl. cbn [negb].
    rewrite <- !app_assoc. reflexivity.
Qed.

Lemma close_after_ticks_witness :
  exists w,
    exec (List.map Tick [tty 1; tty 2; tty 3])
      (snd (construct (tty 0) (lit "job") (Some 5))) = w
    /\ close (tty 1500001) w
       = (Return tt,
          mkWorld (with_closed true (self w))
            (stderr w
             ++ [(CR ++ clear_line ++ lit "["
                  ++ elapsed_field
                       (Timedelta.sub (now (tty 1500001)) (now (tty 0)))
                  ++ lit "] " ++ strip (lit "job")
                  ++ (if Z.of_nat (List.length [tty 1; tty 2; tty 3]) <? 5
                      then lit " ["
                           ++ str_int
                                (Z.of_nat
                                   (List.length [tty 1; tty 2; tty 3]))
                           ++ lit "/" ++ str_int 5 ++ lit "]"
                      else lit " [" ++ str_int 5 ++ lit "]")
                  ++ show_cursor) ++ newline])).
Proof.
  apply (close_after_ticks (tty 0) (lit "job") 5 [tty 1; tty 2; tty 3]
           (tty 1500001)); [reflexivity | reflexivity | reflexivity |].
  cbn; lia.
Defined.

(** ** Closing is for good *)

Lemma exec_closed_instance (cs : list call) (om : pystr) (total : option Z)
      (st : Z) :
  forall (t : Z) (out : list pystr),
    exists t' out',
      exec cs (mkWorld (instance om total st t true) out)
      = mkWorld (instance om total st t' true) out'.
Proof.
  induction cs as [| c cs IH]; intros t out.
  - exists t, out. reflexivity.
  - rewrite exec_cons.
    destruct (run_call_instance c om total st t true out)
      as (t1 & cl1 & out1 & -> & _ & [-> | ->]); apply IH.
Qed.

Lemma del_closed (e : env) (w : world) :
  _closed (self w) = true -> __del__ e w = (Return tt, w).
Proof.
  intros H. unfold __del__. monad_simpl. rewrite H. reflexivity.
Qed.

(** X12.  On an instance made on a terminal, once [close] or [done] has
    been called the instance stays closed whatever is called afterwards,
    and [__del__] then writes nothing and raises nothing. *)
Theorem closed_for_good (e0 : env) (m : pystr) (total : option Z)
        (cs1 cs2 : list call) (c : call) (ed : env) :
  isatty e0 = true -> is_close c = true ->
  _closed (self (exec (cs1 ++ c :: cs2) (snd (construct e0 m total)))) = true
  /\ __del__ ed (exec (cs1 ++ c :: cs2) (snd (construct e0 m total)))
     = (Return tt, exec (cs1 ++ c :: cs2) (snd (construct e0 m total))).
Proof.
  intros Ht0 Hc. rewrite construct_tty by assumption. cbn [snd].
  assert (Hcl : _closed (self (exec (cs1 ++ c :: cs2)
                  (mkWorld (instance (strip m) total (now e0) 0 false)
                     [hide_cursor ++ lit "[-:--:--.--] " ++ strip m])))
                = true).
  { unfold exec. rewrite fold_left_app. cbn [fold_left].
    fold (exec cs1 (mkWorld (instance (strip m) total (now e0) 0 false)
                      [hide_cursor ++ lit "[-:--:--.--] " ++ strip m])).
    destruct (exec_keeps_instance cs1 (strip m) total (now e0) 0 false
                [hide_cursor ++ lit "[-:--:--.--] " ++ strip m])
      as (t & cl & out & ->).
    assert (Hclose : exists out',
              snd (run_call c (mkWorld (instance (strip m) total (now e0) t cl)
                                 out))
              = mkWorld (instance (strip m) total (now e0) t true) out').
    { destruct c as [e | e | e]; [discriminate | |];
        cbn [run_call]; unfold done; destruct cl.
      - rewrite close_closed by reflexivity. eexists. reflexivity.
      - unfold instance. erewrite close_open by reflexivity.
        eexists. reflexivity.
      - rewrite close_closed by reflexivity. eexists. reflexivity.
      - unfold instance. erewrite close_open by reflexivity.
        eexists. reflexivity. }
    destruct Hclose as (out' & ->).
    fold (exec cs2 (mkWorld (instance (strip m) total (now e0) t true) out')).
    destruct (exec_closed_instance cs2 (strip m) total (now e0) t out')
      as (t' & out'' & ->).
    reflexivity. }
  split; [exact Hcl | apply del_closed, Hcl].
Qed.

Lemma closed_for_good_witness :
  _closed (self (exec ([Tick (tty 1)] ++ Close (tty 2) :: [Tick (tty 3)])
                   (snd (construct (tty 0) (lit "job") (Some 5))))) = true
  /\ __del__ (tty 4)
       (exec ([Tick (tty 1)] ++ Close (tty 2) :: [Tick (tty 3)])
          (snd (construct (tty 0) (lit "job") (Some 5))))
     = (Return tt,
        exec ([Tick (tty 1)] ++ Close (tty 2) :: [Tick (tty 3)])
          (snd (construct (tty 0) (lit "job") (Some 5)))).
Proof.
  apply (closed_for_good (tty 0) (lit "job") (Some 5) [Tick (tty 1)]
           [Tick (tty 3)] (Close (tty 2)) (tty 4)); reflexivity.
Defined.

Lemma exec_ticks_open (cs : list call) (om : pystr) (total : option Z)
      (st : Z) :
  forallb (fun c => negb (is_close c)) cs = true ->
  forall (t : Z) (out : list pystr),
    exists t' out',
      exec cs (mkWorld (instance om total st t false) out)
      = mkWorld (instance om total st t' false) out'.
Proof.
  induction cs as [| c cs IH]; intros Hcs t out.
  - exists t, out. reflexivity.
  - cbn [forallb] in Hcs. apply andb_true_iff in Hcs as [Hc Hcs].
    rewrite exec_cons.
    destruct c as [e | e | e]; try discriminate.
    destruct (run_call_instance (Tick e) om total st t false out)
      as (t1 & cl1 & out1 & E & _ & Hcl).
    assert (cl1 = false).
    { destruct Hcl as [-> | ->]; [reflexivity |].
      (* a tick never closes *)
      exfalso. cbn [run_call] in E.
      destruct (isatty e) eqn:Ht.
      - destruct (truthy total) eqn:Hc'.
        + destruct total as [n |]; [| discriminate].
          assert (Hn : n <> 0) by (cbn in Hc'; intros ->; discriminate).
          destruct (tick_determinate_shape e _ out om (short_msg om) n
                      (79 - (len (short_msg om) + 38)) t st false
                      eq_refl Ht Hn) as [[x Ex] | [bar Eb]];
            unfold instance in E; rewrite ?Ex, ?Eb in E; discriminate.
        + unfold instance in E.
          erewrite tick_indeterminate in E by (reflexivity || assumption).
          discriminate.
      - unfold instance in E.
        erewrite tick_not_tty in E by (reflexivity || assumption).
        discriminate. }
    subst cl1. rewrite E. apply IH, Hcs.
Qed.

(** X13.  On an instance made on a terminal on which only ticks were
    called, [__del__] restores the cursor: on a terminal it prints the
    sequence that shows the cursor, and a newline, and nothing else; while
    the stream is not a terminal it prints nothing.  It never raises and
    changes no attribute. *)
Theorem del_restores_cursor (e0 : env) (m : pystr) (total : option Z)
        (cs : list call) (ed : env) :
  isatty e0 = true -> forallb (fun c => negb (is_close c)) cs = true ->
  __del__ ed (exec cs (snd (construct e0 m total)))
  = (Return tt,
     mkWorld (self (exec cs (snd (construct e0 m total))))
       (if isatty ed
        then stderr (exec cs (snd (construct e0 m total)))
             ++ [show_cursor ++ newline]
        else stderr (exec cs (snd (construct e0 m total))))).
Proof.
  intros Ht0 Hcs. rewrite construct_tty by assumption. cbn [snd].
  destruct (exec_ticks_open cs (strip m) total (now e0) Hcs 0
              [hide_cursor ++ lit "[-:--:--.--] " ++ strip m])
    as (t & out & ->).
  unfold __del__. monad_simpl. cbn [instance _closed negb].
  destruct (isatty ed); reflexivity.
Qed.

Lemma del_restores_cursor_witness :
  __del__ (tty 3)
    (exec [Tick (tty 1); Tick (tty 2)]
       (snd (construct (tty 0) (lit "job") (Some 5))))
  = (Return tt,
     mkWorld
       (self (exec [Tick (tty 1); Tick (tty 2)]
                (snd (construct (tty 0) (lit "job") (Some 5)))))
       (if isatty (tty 3)
        then stderr (exec [Tick (tty 1); Tick (tty 2)]
                       (snd (construct (tty 0) (lit "job") (Some 5))))
             ++ [show_cursor ++ newline]
        else stderr (exec [Tick (tty 1); Tick (tty 2)]
                       (snd (construct (tty 0) (lit "job") (Some 5)))))).
Proof.
  apply (del_restores_cursor (tty 0) (lit "job") (Some 5)
           [Tick (tty 1); Tick (tty 2)] (tty 3)); reflexivity.
Defined.

(** X14.  A tick on a terminal on an instance that is already closed, when
    it returns, has printed a line that starts with the sequence hiding the
    cursor, and left the instance closed: whatever [close] and [done] calls
    follow, and [__del__], write nothing more, so nothing shows the cursor
    again. *)
Theorem tick_after_close_hides_cursor (e0 : env) (m : pystr)
        (total : option Z) (cs0 : list call) (e : env) (cs : list call)
        (ed : env) :
  isatty e0 = true -> isatty e = true ->
  _closed (self (exec cs0 (snd (construct e0 m total)))) = true ->
  fst (tick e (exec cs0 (snd (construct e0 m total)))) = Return tt ->
  forallb is_close cs = true ->
  (exists rest,
     stderr (snd (tick e (exec cs0 (snd (construct e0 m total)))))
     = stderr (exec cs0 (snd (construct e0 m total)))
       ++ [hide_cursor ++ rest])
  /\ run cs (snd (tick e (exec cs0 (snd (construct e0 m total)))))
     = (Return tt, snd (tick e (exec cs0 (snd (construct e0 m total)))))
  /\ __del__ ed (snd (tick e (exec cs0 (snd (construct e0 m total)))))
     = (Return tt, snd (tick e (exec cs0 (snd (construct e0 m total))))).
Proof.
  intros Ht0 Ht. rewrite construct_tty by assumption. cbn [snd].
  destruct (exec_keeps_instance cs0 (strip m) total (now e0) 0 false
              [hide_cursor ++ lit "[-:--:--.--] " ++ strip m])
    as (t & cl & out & ->).
  cbn [self instance _closed stderr]. intros -> Hret Hcs.
  assert (H : exists t' rest,
            snd (tick e (mkWorld (instance (strip m) total (now e0) t true)
                           out))
            = mkWorld (instance (strip m) total (now e0) t' true)
                (out ++ [hide_cursor ++ rest])).
  { destruct (truthy total) eqn:Hc.
    - destruct total as [n |]; [| discriminate].
      assert (Hn : n <> 0) by (cbn in Hc; intros ->; discriminate).
      destruct (tick_determinate_shape e _ out (strip m)
                  (short_msg (strip m)) n
                  (79 - (len (short_msg (strip m)) + 38)) t (now e0) true
                  eq_refl Ht Hn) as [[x Ex] | [bar Eb]].
      + unfold instance in Hret. rewrite Ex in Hret. discriminate.
      + unfold instance at 1. rewrite Eb. cbn [snd].
        exists (next_tick t n). eexists.
        unfold tick_line, tick_prefix. rewrite <- !app_assoc. reflexivity.
    - unfold instance at 1.
      erewrite tick_indeterminate by (reflexivity || assumption).
      cbn [snd]. exists t. eexists.
      unfold tick_prefix. rewrite <- !app_assoc. reflexivity. }
  destruct H as (t' & rest & ->). cbn [stderr].
  split; [exists rest; reflexivity |]. split.
  - apply run_closed_closes; [reflexivity | exact Hcs].
  - apply del_closed. reflexivity.
Qed.

Lemma tick_after_close_hides_cursor_witness :
  (exists rest,
     stderr (snd (tick (tty 2500000)
                    (exec [Close (tty 1500000)]
                       (snd (construct (tty 0) (lit "job") None)))))
     = stderr (exec [Close (tty 1500000)]
                 (snd (construct (tty 0) (lit "job") None)))
       ++ [hide_cursor ++ rest])
  /\ run [Close (tty 3000000); Done (tty 4000000)]
       (snd (tick (tty 2500000)
               (exec [Close (tty 1500000)]
                  (snd (construct (tty 0) (lit "job") None)))))
     = (Return tt,
        snd (tick (tty 2500000)
               (exec [Close (tty 1500000)]
                  (snd (construct (tty 0) (lit "job") None)))))
  /\ __del__ (tty 5000000)
       (snd (tick (tty 2500000)
               (exec [Close (tty 1500000)]
                  (snd (construct (tty 0) (lit "job") None)))))
     = (Return tt,
        snd (tick (tty 2500000)
               (exec [Close (tty 1500000)]
                  (snd (construct (tty 0) (lit "job") None))))).
Proof.
  apply (tick_after_close_hides_cursor (tty 0) (lit "job") None
           [Close (tty 1500000)] (tty 2500000)
           [Close (tty 3000000); Done (tty 4000000)] (tty 5000000));
    reflexivity.
Defined.

(** ** The scope on an instance made on a terminal *)

Lemma close_closes (e : env) (w : world) :
  has_attrs (self w) = true -> _closed (self (snd (close e w))) = true.
Proof.
  intros H. destruct (_closed (self w)) eqn:Hcl.
  - rewrite close_closed by assumption. exact Hcl.
  - destruct w as [s out]. cbn [self] in *. open_obj s.
    cbn [_closed] in Hcl. subst cl.
    erewrite close_open by reflexivity. reflexivity.
Qed.

(** X15.  When the block of a [with] statement leaves an instance that has
    the attributes of one made on a terminal, the statement runs [close]
    once on what the block left, ends as the block ended, with the same
    exception if the block raised one, and leaves the instance closed. *)
Theorem with_stmt_on_terminal (e : env) (body : StatusDisplay -> M unit)
        (w : world) :
  has_attrs (self (snd (body (self w) w))) = true ->
  with_stmt e body w
  = (fst (body (self w) w), snd (close e (snd (body (self w) w))))
  /\ _closed (self (snd (with_stmt e body w))) = true.
Proof.
  intros H.
  assert (E : with_stmt e body w
              = (fst (body (self w) w),
                 snd (close e (snd (body (self w) w))))).
  { rewrite with_stmt_closes_once.
    rewrite close_returns by (left; exact H). reflexivity. }
  split; [exact E |]. rewrite E. cbn [snd]. apply close_closes, H.
Qed.

Lemma with_stmt_on_terminal_witness :
  with_stmt (tty 2) failing_block job5_world
  = (fst (failing_block (self job5_world) job5_world),
     snd (close (tty 2) (snd (failing_block (self job5_world) job5_world))))
  /\ _closed (self (snd (with_stmt (tty 2) failing_block job5_world)))
     = true.
Proof.
  apply (with_stmt_on_terminal (tty 2) failing_block job5_world).
  vm_compute. reflexivity.
Defined.

(** ** The width of a line *)

Lemma numeral_value_app (ds : list Z) (d : Z) :
  numeral_value (ds ++ [d]) = 10 * numeral_value ds + d.
Proof. unfold numeral_value. rewrite fold_left_app. reflexivity. Qed.

Lemma digits_exist (k : nat) :
  forall n, 0 <= n < 10 ^ Z.of_nat k ->
  exists ds,
    List.length ds = k /\ Forall is_digit ds /\ numeral_value ds = n.
Proof.
  induction k as [| k IH]; intros n Hn.
  - exists []. cbn in Hn. repeat split; [constructor | cbn; lia].
  - rewrite Nat2Z.inj_succ, Z.pow_succ_r in Hn by lia.
    pose proof (Z.div_mod n 10 ltac:(lia)) as E.
    pose proof (Z.mod_pos_bound n 10 ltac:(lia)) as B.
    destruct (IH (n / 10)) as (ds & Hlen & Hds & Hv).
    { split; [apply Z.div_pos; lia |].
      apply Z.div_lt_upper_bound; lia. }
    exists (ds ++ [n mod 10]). split; [| split].
    + rewrite length_app. cbn [List.length]. lia.
    + apply Forall_app. split; [exact Hds |].
      constructor; [unfold is_digit; lia | constructor].
    + rewrite numeral_value_app, Hv. lia.
Qed.

(** [str(n)] has at most [k] characters when [0 <= n < 10^k]. *)
Lemma str_int_len_le (k : nat) (n : Z) :
  (1 <= k)%nat -> 0 <= n < 10 ^ Z.of_nat k ->
  len (str_int n) <= Z.of_nat k.
Proof.
  intros Hk Hn.
  destruct (digits_exist k n Hn) as (ds & Hlen & Hds & Hv).
  assert (Hne : ds <> []) by (intros ->; cbn in Hlen; lia).
  pose proof (fmt_0d_numeral ds Hds Hne) as H.
  apply (f_equal (@List.length N)) in H.
  unfold fmt_0d, numeral in H.
  rewrite length_app, repeat_length, length_map, Hv, Hlen in H.
  unfold len. lia.
Qed.

Lemma str_int_len_pos (n : Z) : 0 <= n -> 1 <= len (str_int n).
Proof.
  intros Hn. destruct n as [| p |]; [cbn; lia | | lia].
  unfold str_int, len.
  destruct (uint_digits (Pos.to_uint p)) eqn:E; [| cbn [List.length]; lia].
  exfalso. pose proof (Unsigned.to_uint_nonnil p) as Hnil.
  destruct (Pos.to_uint p); try discriminate. apply Hnil. reflexivity.
Qed.

Lemma two_digits_len (n : Z) : len (two_digits n) = 2.
Proof. reflexivity. Qed.

Lemma elapsed_field_format_aux (us : Z) :
  0 <= us < 86400000000 -> us mod 1000000 <> 0 ->
  elapsed_field (Timedelta.of_microseconds us)
  = str_int (us / 3600000000) ++ lit ":"
    ++ two_digits (us / 60000000 mod 60) ++ lit ":"
    ++ two_digits (us / 1000000 mod 60) ++ lit "."
    ++ two_digits (us mod 1000000 / 10000)
  /\ (us < 36000000000 ->
      len (elapsed_field (Timedelta.of_microseconds us)) = 10).
Proof.
  intros Hus Hfrac.
  rewrite elapsed_field_centiseconds by assumption.
  rewrite !Z.div_div by lia. change (1000000 * 60) with 60000000.
  change (1000000 * (60 * 60)) with 3600000000.
  split; [reflexivity |]. intros Hten.
  rewrite !len_app, !two_digits_len.
  change (len (lit ":")) with 1. change (len (lit ".")) with 1.
  assert (Hh : 0 <= us / 3600000000 < 10).
  { split; [apply Z.div_pos; lia | apply Z.div_lt_upper_bound; lia]. }
  pose proof (str_int_len_le 1 (us / 3600000000) ltac:(lia)
                ltac:(cbn; lia)).
  pose proof (str_int_len_pos (us / 3600000000) ltac:(lia)).
  lia.
Qed.

Lemma tick_bar_fills_width_aux (e : env) (om : pystr) (c st t : Z)
      (cl : bool) (out : list pystr) :
  isatty e = true -> 1 <= c < 2 ^ 42 -> 0 <= t ->
  exists bar,
    tick e (mkWorld (instance om (Some c) st t cl) out)
    = (Return tt,
       mkWorld (instance om (Some c) st (next_tick t c) cl)
         (out ++ [tick_line e st (short_msg om) bar (next_tick t c) c]))
    /\ len bar = 79 - (len (short_msg om) + 38).
Proof.
  intros Ht Hc Htk. pose proof (width_range om) as Hw.
  exists (spec_bar (79 - (len (short_msg om) + 38)) (next_tick t c) c).
  split.
  - unfold instance at 1.
    erewrite tick_determinate_exact by (reflexivity || assumption || lia).
    reflexivity.
  - pose proof (next_tick_range t c Htk ltac:(lia)).
    apply spec_bar_len; lia.
Qed.

(** X16.  For an elapsed time from 0 to below one day that is not a whole
    number of seconds, the field [tick] and [close] print is
    [H:MM:SS.cc]: the hours without padding, minutes and seconds with two
    digits and the hundredths of a second, cut and not rounded; below ten
    hours it has 10 characters. *)
Theorem elapsed_field_format (us : Z) :
  0 <= us < 86400000000 -> us mod 1000000 <> 0 ->
  elapsed_field (Timedelta.of_microseconds us)
  = str_int (us / 3600000000) ++ lit ":"
    ++ two_digits (us / 60000000 mod 60) ++ lit ":"
    ++ two_digits (us / 1000000 mod 60) ++ lit "."
    ++ two_digits (us mod 1000000 / 10000)
  /\ (us < 36000000000 ->
      len (elapsed_field (Timedelta.of_microseconds us)) = 10).
Proof. apply elapsed_field_format_aux. Qed.

Lemma elapsed_field_format_witness :
  elapsed_field (Timedelta.of_microseconds 3723456789)
  = str_int (3723456789 / 3600000000) ++ lit ":"
    ++ two_digits (3723456789 / 60000000 mod 60) ++ lit ":"
    ++ two_digits (3723456789 / 1000000 mod 60) ++ lit "."
    ++ two_digits (3723456789 mod 1000000 / 10000)
  /\ (3723456789 < 36000000000 ->
      len (elapsed_field (Timedelta.of_microseconds 3723456789)) = 10).
Proof.
  apply (elapsed_field_format 3723456789); [lia | discriminate].
Defined.

(** X17.  The 38 characters [__init__] sets aside beside the message leave
    the line within 79 columns: for a total from 1 to below [10^9] and an
    elapsed time below ten hours that is not a whole number of seconds, a
    tick on a terminal prints, after the three control sequences, at most
    79 characters. *)
Theorem tick_line_fits (e : env) (om : pystr) (c st t : Z) (cl : bool)
        (out : list pystr) :
  isatty e = true -> 1 <= c < 10 ^ 9 -> 0 <= t ->
  0 <= now e - st < 36000000000 -> (now e - st) mod 1000000 <> 0 ->
  exists visible,
    tick e (mkWorld (instance om (Some c) st t cl) out)
    = (Return tt,
       mkWorld (instance om (Some c) st (next_tick t c) cl)
         (out ++ [hide_cursor ++ CR ++ clear_line ++ visible]))
    /\ len visible <= 79.
Proof.
  intros Ht Hc Htk Hel Hfrac.
  change (10 ^ 9) with 1000000000 in Hc.
  pose proof (width_range om) as Hw.
  pose proof (next_tick_range t c Htk ltac:(lia)) as Hn.
  destruct (tick_bar_fills_width_aux e om c st t cl out Ht
              ltac:(change (2 ^ 42) with 4398046511104; lia) Htk)
    as (bar & E & Hbar).
  exists (lit "[" ++ elapsed_field (Timedelta.sub (now e) st) ++ lit "] "
          ++ short_msg om ++ lit " |" ++ bar ++ lit "| ["
          ++ str_int (next_tick t c) ++ lit "/" ++ str_int c ++ lit "]").
  split.
  - rewrite E. unfold tick_line, tick_prefix. rewrite <- !app_assoc.
    reflexivity.
  - pose proof (proj2 (elapsed_field_format_aux (now e - st)
                         ltac:(lia) Hfrac) ltac:(lia)) as Hlen.
    unfold Timedelta.sub. rewrite !len_app, Hlen, Hbar.
    change (len (lit "[")) with 1. change (len (lit "] ")) with 2.
    change (len (lit " |")) with 2. change (len (lit "| [")) with 3.
    change (len (lit "/")) with 1. change (len (lit "]")) with 1.
    pose proof (str_int_len_le 9 (next_tick t c) ltac:(lia)
                  ltac:(cbn; lia)).
    pose proof (str_int_len_le 9 c ltac:(lia) ltac:(cbn; lia)).
    lia.
Qed.

Lemma tick_line_fits_witness :
  exists visible,
    tick (tty 1500001) (mkWorld (instance msg50 (Some 5) 0 0 false) [])
    = (Return tt,
       mkWorld (instance msg50 (Some 5) 0 (next_tick 0 5) false)
         ([] ++ [hide_cursor ++ CR ++ clear_line ++ visible]))
    /\ len visible <= 79.
Proof.
  apply (tick_line_fits (tty 1500001) msg50 5 0 0 false []);
    [reflexivity | cbn; lia | lia | cbn; lia | discriminate].
Defined.

(** ** The trimmed message *)

Lemma lstrip_starts_clean (s : pystr) : starts_clean (lstrip s).
Proof.
  induction s as [| c s IH]; cbn [lstrip]; [exact I |].
  destruct (isspace c) eqn:E; [exact IH | exact E].
Qed.

Lemma lstrip_clean (s : pystr) : starts_clean s -> lstrip s = s.
Proof.
  destruct s as [| c s]; cbn [starts_clean lstrip]; [reflexivity |].
  intros ->. reflexivity.
Qed.

Lemma lstrip_suffix (s : pystr) :
  exists p, s = p ++ lstrip s /\ forallb isspace p = true.
Proof.
  induction s as [| c s IH]; cbn [lstrip].
  - exists []. split; reflexivity.
  - destruct (isspace c) eqn:E.
    + destruct IH as (p & Hs & Hp). exists (c :: p). split.
      * cbn [Datatypes.app]. f_equal. exact Hs.
      * cbn [forallb]. rewrite E, Hp. reflexivity.
    + exists []. split; reflexivity.
Qed.

Lemma rstrip_prefix (s : pystr) :
  exists q, s = rstrip s ++ q /\ forallb isspace q = true.
Proof.
  unfold rstrip. destruct (lstrip_suffix (List.rev s)) as (p & Hs & Hp).
  exists (List.rev p). split.
  - rewrite <- rev_app_distr, <- Hs, rev_involutive. reflexivity.
  - rewrite forallb_forall in *. intros x Hx. apply Hp, in_rev, Hx.
Qed.

Lemma rstrip_starts_clean (s : pystr) :
  starts_clean s -> starts_clean (rstrip s).
Proof.
  intros Hs. destruct (rstrip_prefix s) as (q & E & Hq).
  destruct (rstrip s) as [| c r]; [exact I |].
  rewrite E in Hs. exact Hs.
Qed.

Lemma strip_clean (s : pystr) :
  starts_clean (strip s) /\ starts_clean (List.rev (strip s)).
Proof.
  unfold strip. split.
  - apply rstrip_starts_clean, lstrip_starts_clean.
  - unfold rstrip. rewrite rev_involutive. apply lstrip_starts_clean.
Qed.

Lemma strip_idempotent (s : pystr) : strip (strip s) = strip s.
Proof.
  destruct (strip_clean s) as [H1 H2].
  unfold strip at 1. rewrite lstrip_clean by exact H1.
  unfold rstrip. rewrite lstrip_clean by exact H2.
  apply rev_involutive.
Qed.

(** X18.  The message [__init__] keeps and prints has no white space at
    either end, and white space around the message given makes no
    difference: the trimmed message gives the same instance and the same
    first line, on a terminal or not. *)
Theorem construct_trims (e0 : env) (m : pystr) (total : option Z) :
  construct e0 (strip m) total = construct e0 m total
  /\ (isatty e0 = true ->
      orig_msg (self (snd (construct e0 m total))) = Some (strip m)
      /\ starts_clean (strip m) /\ starts_clean (List.rev (strip m))).
Proof.
  split.
  - destruct (isatty e0) eqn:Ht.
    + rewrite !construct_tty by assumption. rewrite strip_idempotent.
      reflexivity.
    + rewrite !construct_not_tty by assumption. reflexivity.
  - intros Ht. rewrite construct_tty by assumption.
    split; [reflexivity | apply strip_clean].
Qed.

(** * The module's other functions *)

Import Misc.

(** ** any_duplicates *)

Lemma set_of_length_le {A : Type}
      (eq_dec : forall x y : A, {x = y} + {x <> y}) (l : list A) :
  (List.length (set_of eq_dec l) <= List.length l)%nat.
Proof.
  unfold set_of. induction l as [| x l IH]; cbn [nodup List.length]; [lia |].
  destruct (in_dec eq_dec x l); cbn [List.length]; lia.
Qed.

(** X1.  [any_duplicates] is [False] exactly on the collections without a
    repeated element, in particular on the empty one, and [True] as soon
    as some element occurs twice. *)
Theorem any_duplicates_iff {A : Type}
        (eq_dec : forall x y : A, {x = y} + {x <> y}) (clct : list A) :
  (any_duplicates eq_dec clct = false <-> NoDup clct)
  /\ (any_duplicates eq_dec clct = true
      <-> exists x l1 l2 l3, clct = l1 ++ x :: l2 ++ x :: l3).
Proof.
  assert (H : any_duplicates eq_dec clct = false <-> NoDup clct).
  { unfold any_duplicates. rewrite negb_false_iff, Nat.eqb_eq. split.
    - unfold set_of. induction clct as [| x l IH]; intros E; [constructor |].
      cbn [nodup List.length] in E.
      pose proof (set_of_length_le eq_dec l) as Hle. unfold set_of in Hle.
      destruct (in_dec eq_dec x l) as [Hin | Hnin].
      + lia.
      + cbn [List.length] in E. constructor; [exact Hnin | apply IH; lia].
    - intros Hnd. unfold set_of. rewrite nodup_fixed_point by assumption.
      reflexivity. }
  split; [exact H |].
  split.
  - intros Ht.
    assert (Hn : ~ NoDup clct).
    { intros Hnd. apply H in Hnd. congruence. }
    clear H Ht. induction clct as [| x l IH].
    + exfalso. apply Hn. constructor.
    + destruct (in_dec eq_dec x l) as [Hin | Hnin].
      * apply in_split in Hin as (l2 & l3 & ->).
        exists x, [], l2, l3. reflexivity.
      * destruct IH as (y & l1 & l2 & l3 & ->).
        { intros Hnd. apply Hn. constructor; assumption. }
        exists y, (x :: l1), l2, l3. reflexivity.
  - intros (x & l1 & l2 & l3 & ->).
    apply not_false_iff_true. intros E. apply H in E. apply NoDup_remove_2 in E. exfalso. apply E.
    apply in_or_app. right. apply in_or_app. right. left. reflexivity.
Qed.

(** ** force_run *)

Lemma last_cons {A : Type} (x d : A) (l : list A) :
  List.last (x :: l) d = List.last l x.
Proof.
  revert x d. induction l as [| y l IH]; intros x d; [reflexivity |].
  change (List.last (x :: y :: l) d) with (List.last (y :: l) d).
  rewrite (IH y d), (IH y x). reflexivity.
Qed.

(** With room for every closure, the nest of closures made from [c] and the
    functions [fs] runs [c] and then each function of [fs]. *)
Lemma fold_left_gen {St E : Type} (RecursionError : E)
      (fs : list (func St E)) :
  forall (c : callable St E) (m : nat) (s : St),
    let r := fold_left (gen RecursionError) (List.map def fs) c
               (List.length fs + m)%nat s in
    snd r = run_all fs (snd (c m s))
    /\ fst r = List.last (List.map Some (raised fs (snd (c m s))))
                 (fst (c m s)).
Proof.
  induction fs as [| g fs IH]; intros c m s; [split; reflexivity |].
  cbn zeta. cbn [List.map fold_left List.length].
  replace (S (List.length fs) + m)%nat with (List.length fs + S m)%nat
    by lia.
  destruct (IH (gen RecursionError c (def g)) (S m) s) as [IHs IHr].
  cbn zeta in IHs, IHr. rewrite IHs, IHr. clear IHs IHr IH.
  unfold gen, run_all, invoke, def. cbn [fold_left raised].
  destruct (c m s) as [r1 s1]. cbn [fst snd].
  destruct (g s1) as [[e2 |] s2]; cbn [fst snd List.map].
  - split; [reflexivity |]. rewrite last_cons. reflexivity.
  - split; reflexivity.
Qed.

Lemma force_run_cons {St E : Type} (RecursionError TypeError : E)
      (f : func St E) (fs : list (func St E)) (room : nat) (s : St) :
  (List.length (f :: fs) <= room)%nat ->
  snd (force_run RecursionError TypeError (f :: fs) room s)
  = run_all (f :: fs) s
  /\ fst (force_run RecursionError TypeError (f :: fs) room s)
     = List.last (List.map Some (raised (f :: fs) s)) None.
Proof.
  cbn [List.length]. intros Hroom.
  replace room with (S (List.length fs + (room - S (List.length fs))))%nat
    by lia.
  unfold force_run. cbn [List.map invoke].
  destruct (fold_left_gen RecursionError fs (def f)
              (room - S (List.length fs))%nat s) as [Hs Hr].
  cbn zeta in Hs, Hr. rewrite Hs, Hr. unfold def.
  split; [reflexivity |]. cbn [raised].
  destruct (fst (f s)) as [e |]; cbn [List.map];
    [rewrite last_cons |]; reflexivity.
Qed.

(** X2.  In a body with room for as many nested calls as the list has
    functions, [force_run] calls every function of the list once, from left
    to right, each on the state the one before it left, whether or not any
    of them raised; on the empty list it calls nothing. *)
Theorem force_run_runs_all {St E : Type} (RecursionError TypeError : E)
        (iterable : list (func St E)) (room : nat) (s : St) :
  (List.length iterable <= room)%nat ->
  snd (force_run RecursionError TypeError iterable room s)
  = run_all iterable s.
Proof.
  destruct iterable as [| f fs]; [reflexivity |]. intros Hroom.
  exact (proj1 (force_run_cons RecursionError TypeError f fs room s Hroom)).
Qed.

Lemma force_run_runs_all_witness :
  (List.length [doc_x; doc_z; doc_y] <= 3)%nat
  /\ snd (force_run "RecursionError"%string "TypeError"%string
            [doc_x; doc_z; doc_y] 3 (0, 0))
     = run_all [doc_x; doc_z; doc_y] (0, 0).
Proof.
  split; [cbn; lia |].
  apply (force_run_runs_all "RecursionError"%string "TypeError"%string
           [doc_x; doc_z; doc_y] 3 (0, 0)).
  cbn; lia.
Defined.

(** X3.  In a body with room for as many nested calls as the list has
    functions, [force_run] on a list that is not empty raises the exception
    of the last function that raised, an earlier exception being replaced
    by a later one, and returns normally exactly when no function raised;
    on the empty list it raises [TypeError]. *)
Theorem force_run_raises_last {St E : Type} (RecursionError TypeError : E)
        (f : func St E) (fs : list (func St E)) (room : nat) (s : St) :
  (List.length (f :: fs) <= room)%nat ->
  fst (force_run RecursionError TypeError (f :: fs) room s)
  = List.last (List.map Some (raised (f :: fs) s)) None
  /\ (fst (force_run RecursionError TypeError (f :: fs) room s) = None
      <-> raised (f :: fs) s = [])
  /\ force_run RecursionError TypeError [] room s = (Some TypeError, s).
Proof.
  intros Hroom.
  pose proof (proj2 (force_run_cons RecursionError TypeError f fs room s
                       Hroom)) as H.
  split; [exact H |]. split; [| reflexivity]. rewrite H.
  destruct (raised (f :: fs) s) as [| e es] eqn:Er.
  - split; reflexivity.
  - split; [| discriminate].
    cbn [List.map]. rewrite last_cons. intros Hl. exfalso.
    clear - Hl. revert e Hl. induction es as [| e' es IH]; intros e Hl.
    + discriminate.
    + cbn [List.map] in Hl. rewrite last_cons in Hl. eapply IH, Hl.
Qed.

Lemma force_run_raises_last_witness :
  (List.length [doc_x; doc_z; doc_y] <= 3)%nat
  /\ fst (force_run "RecursionError"%string "TypeError"%string
            [doc_x; doc_z; doc_y] 3 (0, 0))
     = List.last (List.map Some (raised [doc_x; doc_z; doc_y] (0, 0))) None
  /\ (fst (force_run "RecursionError"%string "TypeError"%string
             [doc_x; doc_z; doc_y] 3 (0, 0)) = None
      <-> raised [doc_x; doc_z; doc_y] (0, 0) = [])
  /\ force_run "RecursionError"%string "TypeError"%string [] 3 (0, 0)
     = (Some "TypeError"%string, (0, 0)).
Proof.
  split; [cbn; lia |].
  apply (force_run_raises_last "RecursionError"%string "TypeError"%string
           doc_x [doc_z; doc_y] 3 (0, 0)).
  cbn; lia.
Defined.

(** The two runs of the docstring, and the second with room for two nested
    calls only: [x] is never entered, [y] still runs, and the call raises
    [RecursionError]. *)
Lemma force_run_docstring :
  force_run "RecursionError"%string "TypeError"%string [doc_x; doc_y] 2
    (0, 0) = (None, (1, 2))
  /\ force_run "RecursionError"%string "TypeError"%string
       [doc_x; doc_z; doc_y] 3 (0, 0) = (Some "ValueError"%string, (1, 2))
  /\ force_run "RecursionError"%string "TypeError"%string
       [doc_x; doc_z; doc_y] 2 (0, 0)
     = (Some "RecursionError"%string, (0, 2)).
Proof.
  repeat split.
Qed.

(** ** flatten_dict and flatten_obj *)

Section Flatten.

Context {K V : Type} (eq_dec : forall x y : K, {x = y} + {x <> y}).

Lemma dict_get_None (dct : dict K V) (k : K) :
  dict_get eq_dec dct k = None <-> ~ In k (keys dct).
Proof.
  induction dct as [| [k' v] dct IH]; cbn [dict_get keys List.map In fst].
  - tauto.
  - fold (keys dct). destruct (eq_dec k k') as [-> | Hne].
    + split; [discriminate | intros H; exfalso; apply H; left; reflexivity].
    + rewrite IH. split; [intros H [E | Hin]; [congruence | tauto] | tauto].
Qed.

Lemma dict_get_Some_In (dct : dict K V) (k : K) (v : V) :
  dict_get eq_dec dct k = Some v -> In (k, v) dct.
Proof.
  induction dct as [| [k' v'] dct IH]; cbn [dict_get In]; [discriminate |].
  destruct (eq_dec k k') as [-> | Hne].
  - intros [= ->]. left. reflexivity.
  - intros H. right. apply IH, H.
Qed.

Lemma mem_true (k : K) (s : list K) : mem eq_dec k s = true <-> In k s.
Proof.
  unfold mem. destruct (in_dec eq_dec k s); split; intros; auto; discriminate.
Qed.

Lemma keys_minus_In (dct : dict K V) (s : list K) (k : K) :
  In k (keys_minus eq_dec dct s) <-> In k (keys dct) /\ ~ In k s.
Proof.
  unfold keys_minus. rewrite filter_In, negb_true_iff.
  pose proof (mem_true k s) as Hm.
  destruct (mem eq_dec k s); split; intros [H1 H2]; split; auto.
  - discriminate.
  - exfalso. apply H2, Hm. reflexivity.
  - intros Hin. apply Hm in Hin. discriminate.
Qed.

Lemma comprehension_inr {A B X : Type} (f : A -> X + B) (xs : list A)
      (ys : list B) :
  comprehension f xs = inr ys <-> Forall2 (fun x y => f x = inr y) xs ys.
Proof.
  revert ys. induction xs as [| x xs IH]; intros ys; cbn [comprehension].
  - split; [intros [= <-]; constructor | intros H; inversion H; reflexivity].
  - destruct (f x) as [e | y] eqn:Ef.
    + split; [discriminate | intros H; inversion H; congruence].
    + destruct (comprehension f xs) as [e | ys'].
      * split; [discriminate |]. intros H. inversion H; subst.
        match goal with Hf : Forall2 _ xs _ |- _ => apply IH in Hf end.
        discriminate.
      * split.
        -- intros [= <-]. constructor; [exact Ef | apply IH; reflexivity].
        -- intros H. inversion H; subst.
           match goal with Hf : Forall2 _ xs _ |- _ => apply IH in Hf end.
           congruence.
Qed.

Lemma comprehension_inl {A B X : Type} (f : A -> X + B) (xs : list A)
      (e : X) :
  comprehension f xs = inl e <->
  exists l1 x l2 ys,
    xs = l1 ++ x :: l2 /\ Forall2 (fun x y => f x = inr y) l1 ys
    /\ f x = inl e.
Proof.
  induction xs as [| x xs IH]; cbn [comprehension].
  - split; [discriminate |].
    intros (l1 & x & l2 & ys & E & _). destruct l1; discriminate.
  - destruct (f x) as [e' | y] eqn:Ef.
    + split.
      * intros [= ->]. exists [], x, xs, []. repeat split; [constructor | exact Ef].
      * intros (l1 & x' & l2 & ys & E & Hl1 & Hx).
        destruct l1 as [| a l1]; cbn [Datatypes.app] in E; injection E as -> E.
        -- congruence.
        -- inversion Hl1; subst. congruence.
    + destruct (comprehension f xs) as [e' | ys'] eqn:Ec.
      * split.
        -- intros [= ->]. destruct (proj1 IH eq_refl)
             as (l1 & x' & l2 & ys & -> & Hl1 & Hx).
           exists (x :: l1), x', l2, (y :: ys).
           repeat split; [constructor; assumption | exact Hx].
        -- intros (l1 & x' & l2 & ys & E & Hl1 & Hx).
           destruct l1 as [| a l1]; cbn [Datatypes.app] in E; injection E as -> E.
           ++ congruence.
           ++ inversion Hl1; subst. f_equal.
              assert (Hi : inl e' = (inl e : X + list B)).
              { apply IH. eexists _, _, _, _.
                repeat split; [eassumption | exact Hx]. }
              congruence.
      * split; [discriminate |].
        intros (l1 & x' & l2 & ys & E & Hl1 & Hx).
        destruct l1 as [| a l1]; cbn [Datatypes.app] in E; injection E as -> E.
        -- congruence.
        -- inversion Hl1; subst.
           assert (Hi : (inr ys' : X + list B) = inl e).
           { apply IH. eexists _, _, _, _.
             repeat split; [eassumption | exact Hx]. }
           discriminate.
Qed.

(** X4.  When [flatten_dict] returns, the result has one value for each
    field, in the order of the fields: the value the dictionary holds for
    the field or, for a field the dictionary lacks, [rest_val], which then
    is not [None]. *)
Theorem flatten_dict_values (dct : dict K V) (fields : list K)
        (rest_val : option V) (extras_action : string)
        (field_set : option (list K)) (vs : list V) :
  flatten_dict eq_dec dct fields rest_val extras_action field_set = inr vs ->
  List.length vs = List.length fields
  /\ Forall2 (fun f v => dict_get eq_dec dct f = Some v
                         \/ (~ In f (keys dct) /\ rest_val = Some v))
       fields vs.
Proof.
  intros H.
  assert (HF : Forall2 (fun f v => dict_get eq_dec dct f = Some v
                          \/ (~ In f (keys dct) /\ rest_val = Some v))
                 fields vs).
  { unfold flatten_dict in H.
    destruct (if (extras_action =? "raise")%string
              then keys_minus eq_dec dct (field_set_or field_set fields)
              else []); [| discriminate].
    destruct rest_val as [r |].
    - injection H as <-. clear. induction fields as [| f fields IH];
        cbn [List.map]; constructor; [| exact IH].
      destruct (dict_get eq_dec dct f) eqn:E; [left; reflexivity | right].
      split; [apply dict_get_None, E | reflexivity].
    - apply comprehension_inr in H.
      eapply Forall2_impl; [| exact H]. cbn beta. intros f v Hf.
      destruct (dict_get eq_dec dct f); [left; congruence | discriminate]. }
  split; [symmetry; eapply Forall2_length, HF | exact HF].
Qed.

(** X5.  With the defaults (no [rest_val], extra keys raise, no
    [field_set]) [flatten_dict] returns exactly when the dictionary has the
    fields as its keys, no more and no fewer. *)
Theorem flatten_dict_default_iff (dct : dict K V) (fields : list K) :
  (exists vs, flatten_dict eq_dec dct fields None "raise" None = inr vs)
  <-> (forall k, In k (keys dct) <-> In k fields).
Proof.
  unfold flatten_dict. cbn [String.eqb Ascii.eqb Bool.eqb andb field_set_or].
  split.
  - intros [vs H].
    destruct (keys_minus eq_dec dct fields) as [| k0 ks] eqn:Ek;
      [| discriminate].
    apply comprehension_inr in H. intros k. split.
    + intros Hin. destruct (in_dec eq_dec k fields) as [| Hn]; [assumption |].
      assert (Hk : In k (keys_minus eq_dec dct fields))
        by (apply keys_minus_In; auto).
      rewrite Ek in Hk. destruct Hk.
    + intros Hin. clear Ek. induction H as [| f v fields vs Hf _ IH];
        [destruct Hin |].
      destruct Hin as [<- | Hin]; [| apply IH, Hin].
      destruct (dict_get eq_dec dct f) eqn:E; [| discriminate].
      destruct (in_dec eq_dec f (keys dct)) as [| Hn]; [assumption |].
      apply dict_get_None in Hn. congruence.
  - intros Hk.
    destruct (keys_minus eq_dec dct fields) as [| k0 ks] eqn:Ek.
    + assert (Hall : forall f, In f fields -> In f (keys dct))
        by (intros f; apply Hk).
      clear Hk Ek. induction fields as [| f fields IH].
      * exists []. reflexivity.
      * destruct IH as [vs Hvs]; [intros g Hg; apply Hall; right; exact Hg |].
        cbn [comprehension]. rewrite Hvs.
        destruct (dict_get eq_dec dct f) as [v |] eqn:E.
        -- exists (v :: vs). reflexivity.
        -- exfalso. apply dict_get_None in E. apply E, Hall. left.
           reflexivity.
    + exfalso.
      assert (Hin : In k0 (keys_minus eq_dec dct fields))
        by (rewrite Ek; left; reflexivity).
      apply keys_minus_In in Hin as [Hin Hn]. apply Hn, Hk, Hin.
Qed.

(** X6.  [flatten_dict] raises [ValueError] exactly when extra keys are to
    raise and the dictionary has a key outside the field set, which is
    [field_set] when that is given and not empty and the fields otherwise;
    the exception carries exactly those keys.  It does so whatever
    [rest_val] is and whether or not a field is missing. *)
Theorem flatten_dict_extra_keys (dct : dict K V) (fields : list K)
        (rest_val : option V) (extras_action : string)
        (field_set : option (list K)) :
  (extras_action = "raise"%string
   /\ exists k, In k (keys dct)
               /\ ~ In k (field_set_or field_set fields))
  <-> (exists text extras,
         flatten_dict eq_dec dct fields rest_val extras_action field_set
         = inl (ValueError_extra text extras)
         /\ forall k, In k extras
                      <-> In k (keys dct)
                          /\ ~ In k (field_set_or field_set fields)).
Proof.
  unfold flatten_dict. split.
  - intros [-> (k & Hin & Hn)]. cbn [String.eqb Ascii.eqb Bool.eqb andb].
    destruct (keys_minus eq_dec dct (field_set_or field_set fields))
      as [| k0 ks] eqn:Ek.
    + assert (Hk : In k (keys_minus eq_dec dct
                           (field_set_or field_set fields)))
        by (apply keys_minus_In; auto).
      rewrite Ek in Hk. destruct Hk.
    + exists "invalid extra keys"%string, (k0 :: ks).
      split; [reflexivity |]. intros k'. rewrite <- Ek.
      apply keys_minus_In.
  - intros (text & extras & H & Hex).
    destruct (String.eqb_spec extras_action "raise") as [-> | Hne].
    + split; [reflexivity |].
      destruct (keys_minus eq_dec dct (field_set_or field_set fields))
        as [| k0 ks] eqn:Ek.
      * destruct rest_val; [discriminate |].
        exfalso. apply comprehension_inl in H
          as (l1 & x & l2 & ys & _ & _ & Hx).
        destruct (dict_get eq_dec dct x); discriminate.
      * exists k0. apply keys_minus_In. rewrite Ek. left. reflexivity.
    + exfalso. destruct rest_val; [discriminate |].
      apply comprehension_inl in H as (l1 & x & l2 & ys & _ & _ & Hx).
      destruct (dict_get eq_dec dct x); discriminate.
Qed.

Lemma flatten_dict_KeyError_inv (dct : dict K V) (fields : list K)
        (rest_val : option V) (extras_action : string)
        (field_set : option (list K)) (k : K) :
  flatten_dict eq_dec dct fields rest_val extras_action field_set
  = inl (KeyError k) ->
  rest_val = None
  /\ exists l1 l2,
       fields = l1 ++ k :: l2 /\ ~ In k (keys dct)
       /\ forall f, In f l1 -> In f (keys dct).
Proof.
  unfold flatten_dict. intros H.
  destruct (if (extras_action =? "raise")%string
            then keys_minus eq_dec dct (field_set_or field_set fields)
            else []); [| discriminate].
  destruct rest_val; [discriminate |]. split; [reflexivity |].
  apply comprehension_inl in H as (l1 & x & l2 & ys & -> & Hl1 & Hx).
  destruct (dict_get eq_dec dct x) eqn:Ex; [discriminate |].
  injection Hx as ->. exists l1, l2. split; [reflexivity |].
  split; [apply dict_get_None, Ex |].
  intros f Hf. clear Ex. induction Hl1 as [| a v l1 ys Ha _ IH];
    [destruct Hf |].
  destruct Hf as [<- | Hf]; [| apply IH, Hf].
  destruct (in_dec eq_dec a (keys dct)) as [| Hn]; [assumption |].
  apply dict_get_None in Hn. rewrite Hn in Ha. discriminate.
Qed.

(** X7.  When [flatten_dict] raises [KeyError], no [rest_val] was given and
    the key is the first of the fields, in their order, that the
    dictionary lacks. *)
Theorem flatten_dict_KeyError (dct : dict K V) (fields : list K)
        (rest_val : option V) (extras_action : string)
        (field_set : option (list K)) (k : K) :
  flatten_dict eq_dec dct fields rest_val extras_action field_set
  = inl (KeyError k) ->
  rest_val = None
  /\ exists l1 l2,
       fields = l1 ++ k :: l2 /\ ~ In k (keys dct)
       /\ forall f, In f l1 -> In f (keys dct).
Proof. apply flatten_dict_KeyError_inv. Qed.

Lemma comprehension_map_error {A B X Y : Type} (g : X -> Y)
      (f : A -> X + B) (xs : list A) :
  comprehension (fun x => match f x with
                          | inl e => inl (g e)
                          | inr y => inr y
                          end) xs
  = match comprehension f xs with
    | inl e => inl (g e)
    | inr ys => inr ys
    end.
Proof.
  induction xs as [| x xs IH]; cbn [comprehension]; [reflexivity |].
  destruct (f x); [reflexivity |]. rewrite IH.
  destruct (comprehension f xs); reflexivity.
Qed.

(** X8.  [flatten_obj] on an object is [flatten_dict] on its attributes
    with extra keys ignored, except that a missing attribute raises
    [AttributeError] where a missing key raises [KeyError]: with a
    [rest_val] it never raises, without one it raises for the first field
    the object lacks. *)
Theorem flatten_obj_as_flatten_dict (obj : dict K V) (fields : list K)
        (rest_val : option V) :
  flatten_obj eq_dec obj fields rest_val
  = match flatten_dict eq_dec obj fields rest_val "ignore" None with
    | inl (KeyError k) => inl (AttributeError_missing k)
    | other => other
    end
  /\ (forall r, rest_val = Some r ->
      exists vs, flatten_obj eq_dec obj fields rest_val = inr vs)
  /\ (forall k, flatten_obj eq_dec obj fields rest_val
                = inl (AttributeError_missing k) ->
      exists l1 l2,
        fields = l1 ++ k :: l2 /\ ~ In k (keys obj)
        /\ forall f, In f l1 -> In f (keys obj)).
Proof.
  assert (E : flatten_obj eq_dec obj fields rest_val
              = match flatten_dict eq_dec obj fields rest_val "ignore" None
                with
                | inl (KeyError k) => inl (AttributeError_missing k)
                | other => other
                end).
  { unfold flatten_obj, flatten_dict.
    cbn [String.eqb Ascii.eqb Bool.eqb andb].
    destruct rest_val as [r |]; [reflexivity |].
    pose proof (comprehension_map_error
                  (fun e : flatten_exn K =>
                     match e with
                     | KeyError k => AttributeError_missing k
                     | other => other
                     end)
                  (fun f => match dict_get eq_dec obj f with
                            | Some v => inr v
                            | None => inl (KeyError f)
                            end) fields) as Hm.
    cbn beta in Hm.
    replace (comprehension
               (fun f => match dict_get eq_dec obj f with
                         | Some v => inr v
                         | None => inl (AttributeError_missing f)
                         end) fields)
      with (comprehension
              (fun x => match match dict_get eq_dec obj x with
                              | Some v => inr v
                              | None => inl (KeyError x)
                              end with
                        | inl e => inl match e with
                                       | KeyError k => AttributeError_missing k
                                       | other => other
                                       end
                        | inr y => inr y
                        end) fields).
    - rewrite Hm.
      destruct (comprehension
                  (fun f => match dict_get eq_dec obj f with
                            | Some v => inr v
                            | None => inl (KeyError f)
                            end) fields) as [[] |]; reflexivity.
    - clear. induction fields as [| f fields IH]; [reflexivity |].
      cbn [comprehension]. rewrite IH.
      destruct (dict_get eq_dec obj f); reflexivity. }
  split; [exact E |]. split.
  - intros r ->. eexists. reflexivity.
  - intros k Hk. rewrite E in Hk.
    destruct (flatten_dict eq_dec obj fields rest_val "ignore" None)
      as [[t ex | k' | k'] | vs] eqn:Ed; try discriminate.
    + injection Hk as ->.
      apply flatten_dict_KeyError_inv in Ed as [_ H]. exact H.
    + exfalso. unfold flatten_dict in Ed.
      cbn [String.eqb Ascii.eqb Bool.eqb andb] in Ed.
      destruct rest_val; [discriminate |].
      apply comprehension_inl in Ed as (l1 & x & l2 & ys & _ & _ & Hx).
      destruct (dict_get eq_dec obj x); discriminate.
Qed.

End Flatten.

Lemma flatten_dict_values_witness :
  List.length [1; 2] = List.length ["a"; "b"]%string
  /\ Forall2 (fun f v =>
                dict_get string_dec [("a", 1); ("b", 2)]%string f = Some v
                \/ (~ In f (keys [("a", 1); ("b", 2)]%string)
                    /\ (None : option Z) = Some v))
       ["a"; "b"]%string [1; 2].
Proof.
  apply (flatten_dict_values string_dec [("a", 1); ("b", 2)]%string
           ["a"; "b"]%string None "raise" None [1; 2]).
  reflexivity.
Defined.

Lemma flatten_dict_KeyError_witness :
  (None : option Z) = None
  /\ exists l1 l2,
       ["a"; "b"; "c"]%string = l1 ++ "c"%string :: l2
       /\ ~ In "c"%string (keys [("a", 1); ("b", 2)]%string)
       /\ forall f, In f l1 -> In f (keys [("a", 1); ("b", 2)]%string).
Proof.
  apply (flatten_dict_KeyError string_dec [("a", 1); ("b", 2)]%string
           ["a"; "b"; "c"]%string None "raise" None "c"%string).
  reflexivity.
Defined.

(** * An instance made off a terminal *)

Lemma run_call_off_terminal (c : call) (b : bool) :
  exists b',
    snd (run_call c (mkWorld (with_closed b fresh) []))
    = mkWorld (with_closed b' fresh) [].
Proof.
  destruct c as [e | e | e]; cbn [run_call]; unfold done.
  - exists b. reflexivity.
  - exists true. destruct b; reflexivity.
  - exists true. destruct b; reflexivity.
Qed.

(** X19.  An instance made while the stream is not a terminal has none of
    the attributes: whatever calls are made on it, and whether or not the
    stream is a terminal by then, [tick], [close] and [done] never write
    anything, and every [tick] raises [AttributeError] for [_start]. *)
Theorem off_terminal_never_writes (e0 : env) (m : pystr) (total : option Z)
        (cs : list call) (e : env) :
  isatty e0 = false ->
  stderr (exec cs (snd (construct e0 m total))) = []
  /\ has_attrs (self (exec cs (snd (construct e0 m total)))) = false
  /\ tick e (exec cs (snd (construct e0 m total)))
     = (Raise (AttributeError "_start"),
        exec cs (snd (construct e0 m total))).
Proof.
  intros Ht0. rewrite construct_not_tty by assumption. cbn [snd].
  assert (H : forall b, exists b',
            exec cs (mkWorld (with_closed b fresh) [])
            = mkWorld (with_closed b' fresh) []).
  { induction cs as [| c cs IH]; intros b.
    - exists b. reflexivity.
    - rewrite exec_cons.
      destruct (run_call_off_terminal c b) as (b1 & ->). apply IH. }
  destruct (H false) as (b' & ->). repeat split.
Qed.

Lemma off_terminal_never_writes_witness :
  stderr (exec [Tick (tty 1); Close (tty 2); Close (tty 3); Tick (tty 4)]
            (snd (construct (not_tty 0) (lit "job") (Some 5)))) = []
  /\ has_attrs
       (self (exec [Tick (tty 1); Close (tty 2); Close (tty 3); Tick (tty 4)]
                (snd (construct (not_tty 0) (lit "job") (Some 5))))) = false
  /\ tick (tty 5)
       (exec [Tick (tty 1); Close (tty 2); Close (tty 3); Tick (tty 4)]
          (snd (construct (not_tty 0) (lit "job") (Some 5))))
     = (Raise (AttributeError "_start"),
        exec [Tick (tty 1); Close (tty 2); Close (tty 3); Tick (tty 4)]
          (snd (construct (not_tty 0) (lit "job") (Some 5)))).
Proof.
  apply (off_terminal_never_writes (not_tty 0) (lit "job") (Some 5)
           [Tick (tty 1); Close (tty 2); Close (tty 3); Tick (tty 4)]
           (tty 5)); reflexivity.
Defined.
